(** * InsteadMan 3: interpreter locator, command-line front end and game
      information screen, embedded shallowly and checked against their
      specification.

    Layout of the development:
    - [Go]: the few values of the Go runtime and standard library the sources
      rely on (errors, [os.Stat], [os/exec], [strings], [fmt]);
    - [InterpreterFinder]: [core/interpreter_finder/interpreter_finder.go];
    - [Manager]: the declarations of [core/manager], [core/configurator] and
      [core/utils] that the front ends use;
    - [Prog]: programs with state, process exit and panics;
    - [Cli]: [cmd/insteadman/main.go];
    - [Fyne]: the settings screen and the game information screen of the
      Fyne front end;
    - [Gtk]: the error dialogs of the GTK front end;
    - [Spec], [Sample]: the vocabulary of the properties and a small host to
      run the programs on;
    - [FinderFacts], [CliFacts], [FyneFacts]: the properties;
    - [CliMore], [FinderMore], [GtkFacts], [FyneMore]: further properties of
      the same code.

    Strings are Go strings, that is byte sequences ([string]).  A nil-able
    pointer or error is an [option]; a slice whose nil-ness the code tests is
    an [option (list _)]. *)

From Stdlib Require Import String Ascii List Bool ZArith Lia.
Import ListNotations.
Open Scope string_scope.

(* ================================================================= *)
(** * Go runtime and standard library *)

Module Go.

(** The [error] values the sources can observe.  [os.IsNotExist] only looks
    at the kind of the error. *)
Inductive error : Type :=
| ErrNotExist (path : string)
| ErrPermission (path : string)
| ExitError (code : Z)
| ErrOther (msg : string).

Definition IsNotExist (e : option error) : bool :=
  match e with
  | Some (ErrNotExist _) => true
  | _ => false
  end.

(** [e == nil] and [e != nil]. *)
Definition is_nil {A : Type} (e : option A) : bool :=
  match e with None => true | Some _ => false end.

Definition not_nil {A : Type} (e : option A) : bool := negb (is_nil e).

(** What [os.Stat] reports about an existing file. *)
Record FileInfo : Type := mkFileInfo {
  fi_mode : Z;
  fi_isDir : bool;
  fi_size : Z
}.

(** Outcome of starting a child process and waiting for it. *)
Inductive proc_result : Type :=
| SpawnFailed (e : error)
| Exited (code : Z) (stdout : string).

(** The part of the host the finder talks to: the file system as seen by
    [os.Stat], and the processes [os/exec] can start. *)
Record OS : Type := mkOS {
  os_stat : string -> FileInfo + error;
  os_run : string -> list string -> proc_result
}.

(** [os.Stat(path)]: a file description and a nil error, or no description
    and the error. *)
Definition Stat (os : OS) (path : string) : option FileInfo * option error :=
  match os_stat os path with
  | inl fi => (Some fi, None)
  | inr e => (None, Some e)
  end.

(** [exec.Command(name, arg...)]. *)
Record Cmd : Type := mkCmd {
  cmd_Path : string;
  cmd_Args : list string
}.

Definition Command (name : string) (args : list string) : Cmd :=
  mkCmd name args.

(** [Cmd.Output]: runs the command and returns its standard output; the
    error is non-nil when the process cannot be started or does not exit
    with status 0. *)
Definition Output (os : OS) (c : Cmd) : string * option error :=
  match os_run os (cmd_Path c) (cmd_Args c) with
  | SpawnFailed e => ("", Some e)
  | Exited code out =>
      if (code =? 0)%Z then (out, None) else (out, Some (ExitError code))
  end.

(** ** [strings] *)

Definition LF : ascii := "010"%char.
Definition CR : ascii := "013"%char.

Definition str1 (c : ascii) : string := String c EmptyString.

(** [strings.NewReplacer] for old strings of one byte each, the only kind
    the sources build: a table from byte to replacement in which the first
    pair given for a byte wins. *)
Definition Replacer : Type := list (ascii * string).

Fixpoint NewReplacer (oldnew : list (ascii * string)) : Replacer :=
  match oldnew with
  | [] => []
  | (o, n) :: rest =>
      (o, n) :: filter (fun p => negb (Ascii.eqb (fst p) o)) (NewReplacer rest)
  end.

Fixpoint replacement (r : Replacer) (c : ascii) : option string :=
  match r with
  | [] => None
  | (o, n) :: rest => if Ascii.eqb o c then Some n else replacement rest c
  end.

(** [Replacer.Replace]: every byte with an entry is replaced by it. *)
Fixpoint Replace (r : Replacer) (s : string) : string :=
  match s with
  | EmptyString => EmptyString
  | String c t =>
      match replacement r c with
      | Some n => n ++ Replace r t
      | None => String c (Replace r t)
      end
  end.

(** [strings.ToLower].  Go maps an all-ASCII string byte by byte (and
    returns it as it is when it has no upper-case letter); any other string
    goes through the Unicode tables, which are a parameter here. *)
Definition isUpperByte (c : ascii) : bool :=
  let n := nat_of_ascii c in (65 <=? n)%nat && (n <=? 90)%nat.

Definition isASCIIByte (c : ascii) : bool := (nat_of_ascii c <? 128)%nat.

Definition lowerByte (c : ascii) : ascii :=
  if isUpperByte c then ascii_of_nat (nat_of_ascii c + 32) else c.

Fixpoint allBytes (p : ascii -> bool) (s : string) : bool :=
  match s with
  | EmptyString => true
  | String c t => p c && allBytes p t
  end.

Fixpoint mapBytes (f : ascii -> ascii) (s : string) : string :=
  match s with
  | EmptyString => EmptyString
  | String c t => String (f c) (mapBytes f t)
  end.

Definition ToLowerWith (unicodeLower : string -> string) (s : string) : string :=
  if allBytes isASCIIByte s then
    if allBytes (fun c => negb (isUpperByte c)) s then s
    else mapBytes lowerByte s
  else unicodeLower s.

(** [strings.Join]. *)
Definition Join (elems : list string) (sep : string) : string :=
  String.concat sep elems.

(** Bytes of a string that satisfy [keep], in order. *)
Fixpoint filterBytes (keep : ascii -> bool) (s : string) : string :=
  match s with
  | EmptyString => EmptyString
  | String c t =>
      if keep c then String c (filterBytes keep t) else filterBytes keep t
  end.

(** ** Slices *)

(** [s[n:]]: panics ([None]) when [n] is beyond the length. *)
Definition slice_from {A : Type} (n : nat) (s : list A) : option (list A) :=
  if (n <=? length s)%nat then Some (skipn n s) else None.

(** ** [fmt] *)

(** [%v] of a slice of strings. *)
Definition fmt_strings (l : list string) : string :=
  "[" ++ String.concat " " l ++ "]".

(** [fmt.Sprintf] for the verbs the sources use, [%s] and [%v], on
    operands that are already rendered as strings. *)
Fixpoint Sprintf (format : string) (args : list string) : string :=
  match format with
  | EmptyString => EmptyString
  | String c rest =>
      if Ascii.eqb c "%" then
        match rest with
        | EmptyString => "%!(NOVERB)"
        | String v rest' =>
            if Ascii.eqb v "s" || Ascii.eqb v "v" then
              match args with
              | a :: args' => a ++ Sprintf rest' args'
              | [] => "%!" ++ str1 v ++ "(MISSING)" ++ Sprintf rest' []
              end
            else if Ascii.eqb v "%" then String "%" (Sprintf rest' args)
            else "%!" ++ str1 v ++ "(BADVERB)" ++ Sprintf rest' args
        end
      else String c (Sprintf rest args)
  end.

End Go.

(* ================================================================= *)
(** * core/interpreter_finder *)

Module InterpreterFinder.
Import Go.

(** Declarations the finder takes from elsewhere:
    [builtinRelativeFilePath] and the list returned by [exactFilePaths()]
    come from the per-platform files of the package,
    [ExpandInterpreterCommand] from the configurator and [filepath.Join]
    from the standard library. *)
Record Platform : Type := mkPlatform {
  builtinRelativeFilePath : string;
  exactFilePaths : list string;
  ExpandInterpreterCommand : string -> string;
  filepath_Join : string -> string -> string
}.

Record InterpreterFinder : Type := mkFinder {
  CurrentDir : string
}.

Section Finder.

Variable pf : Platform.
Variable os : OS.

Definition HaveBuiltIn (f : InterpreterFinder) : bool :=
  let '(_, e) :=
    Stat os (filepath_Join pf (CurrentDir f) (builtinRelativeFilePath pf)) in
  let exists_ := negb (IsNotExist e) in
  if exists_ && is_nil e then true else false.

Definition FindBuiltin (f : InterpreterFinder) : string :=
  let path := "" in
  let path :=
    if HaveBuiltIn f
    then filepath_Join pf (CurrentDir f) (builtinRelativeFilePath pf)
    else path in
  path.

(** The loop of [Find] over the candidate paths. *)
Fixpoint Find_loop (paths : list string) : option string :=
  match paths with
  | [] => None
  | path :: rest =>
      let '(_, e) := Stat os path in
      let exists_ := negb (IsNotExist e) in
      if exists_ && is_nil e then Some path else Find_loop rest
  end.

Definition Find (f : InterpreterFinder) : option string :=
  Find_loop (exactFilePaths pf).

Definition Check (f : InterpreterFinder) (command : string)
  : string * option error :=
  let '(out, e) :=
    Output os (Command (ExpandInterpreterCommand pf command) ["-version"]) in
  if not_nil e then ("", e)
  else
    let replacer := NewReplacer [(LF, ""); (CR, "")] in
    let version := Replace replacer out in
    (version, e).

End Finder.

End InterpreterFinder.

(* ================================================================= *)
(** * Declarations of the packages the front ends call *)

Module Manager.
Import Go.

(** Modelled from the spec: the [Game] record of package [core/manager],
    which is not among the sources.  The fields read or written by the
    front ends keep the names used there; [Url] and [Date] stand for the
    download URL and the publication time of the data model. *)
Record Game : Type := mkGame {
  Name : string;
  Title : string;
  Description : string;
  Version : string;
  Languages : option (list string);
  RepositoryName : string;
  Descurl : string;
  Url : string;
  Size : Z;
  Date : Z;
  Installed : bool
}.

Definition set_Installed (b : bool) (g : Game) : Game :=
  mkGame (Name g) (Title g) (Description g) (Version g) (Languages g)
         (RepositoryName g) (Descurl g) (Url g) (Size g) (Date g) b.

Definition set_RepositoryName (r : string) (g : Game) : Game :=
  mkGame (Name g) (Title g) (Description g) (Version g) (Languages g)
         r (Descurl g) (Url g) (Size g) (Date g) (Installed g).

(** Modelled from the spec: a configured source of games. *)
Record Repository : Type := mkRepository {
  repo_Name : string;
  repo_Url : string
}.

(** Modelled from the spec: the configuration object
    [{interpreterCommand, language, dataPath}]. *)
Record Config : Type := mkConfig {
  InterpreterCommand : string;
  Lang : string;
  DataPath : string
}.

Definition set_InterpreterCommand (cmd : string) (c : Config) : Config :=
  mkConfig cmd (Lang c) (DataPath c).

(** The configurator value built in [initManagerAndConfigurator]. *)
Record Configurator : Type := mkConfigurator {
  FilePath : string;
  cfg_CurrentDir : string;
  cfg_Version : string
}.

(** The manager value built in [initManagerAndConfigurator]. *)
Record Manager : Type := mkManager {
  Config_ : Config;
  Finder : InterpreterFinder.InterpreterFinder
}.

Definition set_Config (c : Config) (m : Manager) : Manager :=
  mkManager c (Finder m).

(** Methods of the manager and of the configurator, and the helpers of
    [core/utils]; their code is not among the sources.  [E] is the state of
    the host outside the program (file system, network, processes).
    [InstallGame], [RunGame] and [RemoveGame] act on the game they receive
    by pointer and return the record as they leave it; [GetGameImage] only
    reads it and returns a file name.  [InstallGame] also returns the
    sizes, in order, with which it invoked its progress callback. *)
Set Implicit Arguments.
Record Ops (E : Type) : Type := mkOps {
  manager_Version : string;
  HasDownloadedRepositories : Manager -> E -> bool;
  UpdateRepositories : Manager -> E -> option (list error) * E;
  GetSortedGames : Manager -> E -> (list Game * option error) * E;
  GetSortedGamesByDateDesc : Manager -> E -> (list Game * option error) * E;
  FilterGames :
    list Game -> option string -> option string -> option string -> bool ->
    list Game;
  InstallGame : Manager -> Game -> E -> (list Z * Game * option error) * E;
  RunGame : Manager -> Game -> E -> (Game * option error) * E;
  RemoveGame : Manager -> Game -> E -> (Game * option error) * E;
  GetGameImage : Manager -> Game -> E -> (string * option error) * E;
  FindLangs : Manager -> list Game -> E -> list string;
  GetRepositories : Manager -> E -> list Repository;
  Manager_InterpreterCommand : Manager -> E -> string;
  IsBuiltinInterpreterCommand : Manager -> E -> bool;
  HumanSize : Game -> string;
  HumanVersion : Game -> string;
  GetConfig : Configurator -> E -> (Configurator * Config * option error) * E;
  SaveConfig : Configurator -> Config -> E -> option error * E;
  DataResourcePath : Configurator -> string -> string;
  BinAbsDir : string -> string * option error;
  Percents : Z -> Z -> string;
  os_Executable : E -> string * option error;
  os_ReadFile : string -> E -> string * option error;
  host : E -> OS;
  platform : InterpreterFinder.Platform;
  unicodeLower : string -> string;
  Error : error -> string
}.
Unset Implicit Arguments.

End Manager.

(* ================================================================= *)
(** * Programs: state, process exit and panics *)

Module Prog.

(** A computation returns, or stops the process ([os.Exit]), or panics. *)
Inductive outcome (A : Type) : Type :=
| Done (a : A)
| Exit (code : Z)
| Panic.
Arguments Done {A} _.
Arguments Exit {A} _.
Arguments Panic {A}.

Definition M (S A : Type) : Type := S -> outcome A * S.

Definition ret {S A} (a : A) : M S A := fun s => (Done a, s).

Definition bind {S A B} (c : M S A) (k : A -> M S B) : M S B :=
  fun s =>
    match c s with
    | (Done a, s') => k a s'
    | (Exit code, s') => (Exit code, s')
    | (Panic, s') => (Panic, s')
    end.

Declare Scope prog_scope.
Delimit Scope prog_scope with prog.
Notation "x <- c ;; k" := (bind c (fun x => k))
  (at level 61, c at next level, right associativity) : prog_scope.
Notation "c ;; k" := (bind c (fun _ => k))
  (at level 61, right associativity) : prog_scope.

Definition os_Exit {S A} (code : Z) : M S A := fun s => (Exit code, s).

Definition panic {S A} : M S A := fun s => (Panic, s).

Definition when {S} (b : bool) (c : M S unit) : M S unit :=
  if b then c else ret tt.

Fixpoint forEach {S A} (l : list A) (body : A -> M S unit) : M S unit :=
  match l with
  | [] => ret tt
  | x :: rest => bind (body x) (fun _ => forEach rest body)
  end.

(** [*p]: a nil pointer panics. *)
Definition deref {S A} (p : option A) : M S A :=
  match p with Some a => ret a | None => panic end.

(** [s[n:]]. *)
Definition slice {S A} (n : nat) (l : list A) : M S (list A) :=
  match Go.slice_from n l with
  | Some l' => ret l'
  | None => panic
  end.

(** A nil slice ranges over nothing. *)
Definition elems {A} (l : option (list A)) : list A :=
  match l with Some l' => l' | None => [] end.

Definition NL : string := Go.str1 Go.LF.

End Prog.

(* ================================================================= *)
(** * cmd/insteadman/main.go *)

Module Cli.
Import Go Manager Prog.
Open Scope prog_scope.

(** Package [cmd/insteadman/cli] and the [color] library: argument
    helpers and text decoration.  [color_Cyan] is what [color.Cyan]
    writes for its argument. *)
Record Pkg : Type := mkPkg {
  GetCommand : list string -> string;
  GetCommandArg : list string -> option string;
  FindStringArg : string -> list string -> option string;
  FindBoolArg : string -> list string -> bool;
  FmtName : string -> string;
  FmtTitle : string -> string;
  FmtRepo : string -> string;
  FmtLang : string -> string;
  FmtInstalled : string -> string;
  FmtSize : string -> string;
  FmtVersion : string -> string;
  FmtURL : string -> string;
  GreenString : string -> string;
  CyanString : string -> string;
  BoldSprint : string -> string;
  CyanBoldSprint : string -> string;
  color_Cyan : string -> string
}.

(** What the program does to the outside, in order: text written to
    standard output and calls into the manager. *)
Inductive event : Type :=
| Print (s : string)
| CallUpdateRepositories
| CallGetSortedGames
| CallGetSortedGamesByDateDesc
| CallInstallGame (g : Game)
| CallRunGame (g : Game)
| CallRemoveGame (g : Game)
| CallFind
| CallGetConfig
| CallSaveConfig (c : Config).

Record St (E : Type) : Type := mkSt {
  trace : list event;
  world : E
}.
Arguments mkSt {E} _ _.
Arguments trace {E} _.
Arguments world {E} _.

Definition M (E A : Type) : Type := Prog.M (St E) A.

Definition emit {E} (e : event) : M E unit :=
  fun s => (Done tt, mkSt (trace s ++ [e]) (world s)).

(** A call that reads the host. *)
Definition read {E A} (f : E -> A) : M E A :=
  fun s => (Done (f (world s)), s).

(** A call that may change the host. *)
Definition call {E A} (ev : event) (f : E -> A * E) : M E A :=
  fun s =>
    let '(a, w) := f (world s) in
    (Done a, mkSt (trace s ++ [ev]) w).

Definition Println {E} (s : string) : M E unit := emit (Print (s ++ NL)).

Definition Printf {E} (format : string) (args : list string) : M E unit :=
  emit (Print (Sprintf format args)).

(** [uint64(n)]. *)
Definition uint64 (n : Z) : Z := (n mod 2 ^ 64)%Z.

Section Commands.

Context {E : Type}.
Variable ops : Ops E.
Variable cli : Pkg.

Definition ToLower : string -> string := ToLowerWith (unicodeLower ops).

Definition asciiArt : string :=
  NL ++
  " ___           _                 _ __  __             " ++ NL ++
  "|_ _|_ __  ___| |_ ___  __ _  __| |  \/  | __ _ _ __  " ++ NL ++
  " | || '_ \/ __| __/ _ \/ _, |/ _, | |\/| |/ _, | '_ \ " ++ NL ++
  " | || | | \__ \ ||  __/ (_| | (_| | |  | | (_| | | | |" ++ NL ++
  "|___|_| |_|___/\__\___|\__,_|\__,_|_|  |_|\__,_|_| |_|" ++ NL.

Definition usageText : string :=
  CyanBoldSprint cli "Usage" ++ ":" ++ NL ++
  "    insteadman-cli [command] [keyword]" ++ NL ++ NL ++
  CyanBoldSprint cli "Commands" ++ ":" ++ NL ++
  CyanBoldSprint cli "update" ++
  NL ++ "    Update game's repositories" ++ NL ++
  CyanBoldSprint cli "list" ++
  CyanString cli " --repo=[name] --lang=[lang] --installed" ++
  NL ++ "    Print list of games with filtering" ++ NL ++
  CyanBoldSprint cli "search" ++
  CyanString cli " [keyword] --repo=[name] --lang=[lang] --installed" ++
  NL ++ "    Search game by name and title with filtering" ++ NL ++
  CyanBoldSprint cli "show" ++ CyanString cli " [keyword]" ++
  NL ++ "    Show information about game by keyword" ++ NL ++
  CyanBoldSprint cli "install" ++ CyanString cli " [keyword]" ++
  NL ++ "    Install game by keyword" ++ NL ++
  CyanBoldSprint cli "run" ++ CyanString cli " [keyword]" ++
  NL ++ "    Run game by keyword" ++ NL ++
  CyanBoldSprint cli "remove" ++ CyanString cli " [keyword]" ++
  NL ++ "    Remove game by keyword" ++ NL ++
  CyanBoldSprint cli "findInterpreter" ++
  NL ++ "    Find INSTEAD interpreter and save path to the config" ++ NL ++
  CyanBoldSprint cli "repositories" ++
  NL ++ "    Print available repositories" ++ NL ++
  CyanBoldSprint cli "langs" ++
  NL ++ "    Print available game languages" ++ NL ++
  CyanBoldSprint cli "configPath" ++
  NL ++ "    Print config path" ++ NL ++
  CyanBoldSprint cli "version" ++
  NL ++ "    Print current version of the application" ++ NL ++ NL ++
  "More info: " ++ FmtURL cli "http://jhekasoft.github.io/insteadman/" ++ NL.

Definition printHelpAndExit : M E unit :=
  emit (Print (color_Cyan cli asciiArt)) ;;
  Printf (NL ++ BoldSprint cli "InsteadMan CLI" ++
          " %s — INSTEAD games manager (launcher)" ++ NL ++ NL)
         [manager_Version ops] ;;
  emit (Print usageText) ;;
  os_Exit 1.

(** Modelled from the spec: [cli.ExitIfError], of a package that is not
    among the sources.  A failure is surfaced as a message to the user;
    the command-line program then stops with status 1, as its own exits
    do. *)
Definition ExitIfError (e : option error) : M E unit :=
  match e with
  | Some err => Printf ("Error: %v" ++ NL) [Error ops err] ;; os_Exit 1
  | None => ret tt
  end.

Definition getGamesFilterValues (args : list string)
  : option string * option string * bool :=
  let repository := FindStringArg cli "--repository" args in
  let lang := FindStringArg cli "--lang" args in
  let onlyInstalled := FindBoolArg cli "--installed" args in
  (repository, lang, onlyInstalled).

(** The loop of [getOrExitIfNoGame]: the first game whose lower-cased
    name is the lower-cased keyword. *)
Fixpoint getOrExitIfNoGame_loop (games : list Game) (keyword : string)
  : option Game :=
  match games with
  | [] => None
  | game :: rest =>
      if String.eqb (ToLower (Name game)) (ToLower keyword)
      then Some game
      else getOrExitIfNoGame_loop rest keyword
  end.

Definition getOrExitIfNoGame (filteredGames : list Game) (keyword : string)
  : M E Game :=
  when (length filteredGames <? 1)%nat
    (Printf ("Game %s has not found" ++ NL) [FmtName cli keyword] ;;
     os_Exit 1) ;;
  match getOrExitIfNoGame_loop filteredGames keyword with
  | Some game => ret game
  | None => deref (nth_error filteredGames 0)
  end.

Definition printGames (games : list Game) : M E unit :=
  forEach games (fun game =>
    let installed := "" in
    let installed :=
      if Installed game then FmtInstalled cli "[installed]" else installed in
    Printf ("%s, %s, %s " ++ FmtLang cli "%v" ++ " %s" ++ NL)
           [FmtTitle cli (Title game); FmtName cli (Name game);
            FmtRepo cli (RepositoryName game);
            fmt_strings (elems (Languages game)); installed]).

(** ** Commands *)

Definition update (m : Manager) : M E unit :=
  Println "Updating repositories..." ;;
  errors <- call CallUpdateRepositories (UpdateRepositories ops m) ;;
  when (not_nil errors) (Println "There are errors:") ;;
  forEach (elems errors) (fun e => Printf ("%s" ++ NL) [Error ops e]) ;;
  Println "Repositories have updated.".

Definition list_ (m : Manager) (args : list string) : M E unit :=
  r <- call CallGetSortedGamesByDateDesc (GetSortedGamesByDateDesc ops m) ;;
  let '(games, e) := r in
  ExitIfError e ;;
  rest <- slice 1 args ;;
  let '(repository, lang, onlyInstalled) := getGamesFilterValues rest in
  let games :=
    if not_nil repository || not_nil lang || onlyInstalled
    then FilterGames ops games None repository lang onlyInstalled
    else games in
  printGames games.

Definition search (m : Manager) (args : list string) : M E unit :=
  r <- call CallGetSortedGames (GetSortedGames ops m) ;;
  let '(games, e) := r in
  ExitIfError e ;;
  let keyword := GetCommandArg cli args in
  when (is_nil keyword) printHelpAndExit ;;
  rest <- slice 2 args ;;
  let '(repository, lang, onlyInstalled) := getGamesFilterValues rest in
  let filteredGames :=
    FilterGames ops games keyword repository lang onlyInstalled in
  printGames filteredGames.

Definition install (m : Manager) (args : list string) : M E unit :=
  r <- call CallGetSortedGames (GetSortedGames ops m) ;;
  let '(games, e) := r in
  ExitIfError e ;;
  let keyword := GetCommandArg cli args in
  when (is_nil keyword) printHelpAndExit ;;
  let filteredGames := FilterGames ops games keyword None None false in
  kw <- deref keyword ;;
  game <- getOrExitIfNoGame filteredGames kw ;;
  Printf "Downloading and installing game %s..." [FmtName cli (Title game)] ;;
  let installProgress := fun size : Z =>
    let percents := Percents ops size (uint64 (Size game)) in
    Printf (str1 CR ++ "Downloading and installing game %s... %s")
           [FmtName cli (Title game); GreenString cli percents] in
  r <- call (CallInstallGame game) (InstallGame ops m game) ;;
  let '(sizes, game, e) := r in
  forEach sizes installProgress ;;
  ExitIfError e ;;
  Printf (NL ++ "Game %s has installed." ++ NL) [FmtName cli (Title game)].

Definition show (m : Manager) (args : list string) : M E unit :=
  r <- call CallGetSortedGames (GetSortedGames ops m) ;;
  let '(games, e) := r in
  ExitIfError e ;;
  let keyword := GetCommandArg cli args in
  when (is_nil keyword) printHelpAndExit ;;
  let filteredGames := FilterGames ops games keyword None None false in
  kw <- deref keyword ;;
  game <- getOrExitIfNoGame filteredGames kw ;;
  let installedTxt := "" in
  let installedTxt :=
    if Installed game then FmtInstalled cli "[installed]" else installedTxt in
  Printf ("%s (%s) %s %s" ++ NL)
         [FmtTitle cli (Title game); FmtName cli (Name game);
          FmtSize cli (HumanSize ops game); installedTxt] ;;
  Printf ("Version: %s" ++ NL) [FmtVersion cli (HumanVersion ops game)] ;;
  when (not_nil (Languages game))
    (Printf ("Languages: %s" ++ NL)
            [FmtLang cli (Join (elems (Languages game)) ", ")]) ;;
  when (negb (String.eqb (RepositoryName game) ""))
    (Printf ("Repository: %s" ++ NL) [FmtRepo cli (RepositoryName game)]) ;;
  when (negb (String.eqb (Descurl game) ""))
    (Printf ("More: %s" ++ NL) [FmtURL cli (Descurl game)]) ;;
  when (negb (String.eqb (Description game) ""))
    (Printf (NL ++ BoldSprint cli "Descriprion" ++ ":" ++ NL ++ "%s" ++ NL)
            [Description game]).

Definition run (m : Manager) (args : list string) : M E unit :=
  r <- call CallGetSortedGames (GetSortedGames ops m) ;;
  let '(games, e) := r in
  ExitIfError e ;;
  let keyword := GetCommandArg cli args in
  when (is_nil keyword) printHelpAndExit ;;
  let filteredGames := FilterGames ops games keyword None None false in
  kw <- deref keyword ;;
  game <- getOrExitIfNoGame filteredGames kw ;;
  when (negb (Installed game))
    (Printf ("Game %s isn't installed." ++ NL) [FmtName cli (Title game)] ;;
     Printf ("Please run for installation:" ++ NL ++
             "insteadman install %s" ++ NL) [Name game] ;;
     os_Exit 1) ;;
  r <- call (CallRunGame game) (RunGame ops m game) ;;
  let '(game, e) := r in
  ExitIfError e ;;
  Printf ("Running %s game..." ++ NL) [FmtName cli (Title game)].

Definition remove (m : Manager) (args : list string) : M E unit :=
  r <- call CallGetSortedGames (GetSortedGames ops m) ;;
  let '(games, e) := r in
  ExitIfError e ;;
  let keyword := GetCommandArg cli args in
  when (is_nil keyword) printHelpAndExit ;;
  let filteredGames := FilterGames ops games keyword None None false in
  kw <- deref keyword ;;
  game <- getOrExitIfNoGame filteredGames kw ;;
  Printf ("Removing game %s..." ++ NL) [FmtName cli (Title game)] ;;
  r <- call (CallRemoveGame game) (RemoveGame ops m game) ;;
  let '(game, e) := r in
  ExitIfError e ;;
  Printf ("Game %s has removed." ++ NL) [FmtName cli (Title game)].

(** [m] is a pointer: the manager is returned as the command leaves it. *)
Definition findInterpreter (m : Manager) (c : Configurator) : M E Manager :=
  emit CallFind ;;
  path <- read (fun w =>
            InterpreterFinder.Find (platform ops) (host ops w) (Finder m)) ;;
  match path with
  | None =>
      Println "INSTEAD has not found. Please add it in config.yml (interpreter_command)" ;;
      ret m
  | Some p =>
      Printf ("INSTEAD has found: %s" ++ NL) [p] ;;
      let m := set_Config (set_InterpreterCommand p (Config_ m)) m in
      e <- call (CallSaveConfig (Config_ m)) (SaveConfig ops c (Config_ m)) ;;
      ExitIfError e ;;
      Println "Path has saved" ;;
      ret m
  end.

Definition repositories (m : Manager) : M E unit :=
  repos <- read (GetRepositories ops m) ;;
  forEach repos (fun repo =>
    Printf ("%s (%s)" ++ NL) [FmtRepo cli (repo_Name repo); repo_Url repo]).

Definition langs (m : Manager) : M E unit :=
  r <- call CallGetSortedGames (GetSortedGames ops m) ;;
  let '(games, e) := r in
  ExitIfError e ;;
  ls <- read (FindLangs ops m games) ;;
  forEach ls (fun lang => Printf ("%s" ++ NL) [FmtLang cli lang]).

Definition printVersion : M E unit := Println (manager_Version ops).

Definition printConfigPath (c : Configurator) : M E unit :=
  Println (FilePath c).

(** ** Start-up and dispatch *)

Definition initManagerAndConfigurator : M E (Manager * Configurator) :=
  r <- read (os_Executable ops) ;;
  let '(executablePath, e) := r in
  ExitIfError e ;;
  let '(currentDir, e) := BinAbsDir ops executablePath in
  ExitIfError e ;;
  let c := mkConfigurator "" currentDir (manager_Version ops) in
  r <- call CallGetConfig (GetConfig ops c) ;;
  let '(c, config, e) := r in
  ExitIfError e ;;
  let finder := InterpreterFinder.mkFinder currentDir in
  let m := mkManager config finder in
  ret (m, c).

Definition checkInterpreterAndReinit (m : Manager) (c : Configurator)
  : M E (Manager * Configurator) :=
  cmd <- read (Manager_InterpreterCommand ops m) ;;
  if String.eqb cmd "" then
    findInterpreter m c ;;
    initManagerAndConfigurator
  else ret (m, c).

Definition runCommand (command : string) (args : list string)
                      (m : Manager) (c : Configurator) : M E unit :=
  if String.eqb command "update" then update m
  else if String.eqb command "list" then list_ m args
  else if String.eqb command "search" then search m args
  else if String.eqb command "show" then show m args
  else if String.eqb command "run" then run m args
  else if String.eqb command "install" then install m args
  else if String.eqb command "remove" then remove m args
  else if String.eqb command "findinterpreter" then
    findInterpreter m c ;; ret tt
  else if String.eqb command "repositories" then repositories m
  else if String.eqb command "langs" then langs m
  else if String.eqb command "configpath" then printConfigPath c
  else if String.eqb command "version" then printVersion
  else printHelpAndExit.

Definition main (os_Args : list string) : M E unit :=
  r <- initManagerAndConfigurator ;;
  let '(m, c) := r in
  has <- read (HasDownloadedRepositories ops m) ;;
  let needRepositoriesUpdate := negb has in
  argsWithoutProg <- slice 1 os_Args ;;
  let command := ToLower (GetCommand cli argsWithoutProg) in
  (* A Go [case] does not fall through to the next one: the cases
     "list", "search" and "run" have empty bodies. *)
  m <- (if String.eqb command "list" then ret m
        else if String.eqb command "search" then ret m
        else if String.eqb command "langs" then
          when needRepositoriesUpdate (update m) ;;
          ret m
        else if String.eqb command "run" then ret m
        else if String.eqb command "install" then
          r <- checkInterpreterAndReinit m c ;;
          ret (fst r)
        else ret m) ;;
  runCommand command argsWithoutProg m c.

End Commands.

End Cli.

(* ================================================================= *)
(** * The Fyne front end: settings screen and game information screen *)

Module Fyne.
Import Go Manager Prog.
Open Scope prog_scope.

(** A label, entry or hyperlink: its text and whether it is hidden. *)
Record Label : Type := mkLabel {
  Text : string;
  Hidden : bool
}.

Definition SetText (t : string) (l : Label) : Label := mkLabel t (Hidden l).
Definition Show (l : Label) : Label := mkLabel (Text l) false.
Definition Hide (l : Label) : Label := mkLabel (Text l) true.

Inductive Resource : Type :=
| InsteadManLogo
| StaticResource (name : string) (content : string).

(** A progress value: [float64(size) / float64(total)], or the constant 1. *)
Inductive progress : Type :=
| Ratio (size total : Z)
| Full.

(** What a handler does besides updating the widgets of its screen. *)
Inductive event : Type :=
| ProgressShow (title message : string)
| ProgressSetValue (v : progress)
| ProgressHide
| ShowError (e : error)
| Print (s : string)
| CallInstallGame (g : Game)
| CallRunGame (g : Game)
| CallRemoveGame (g : Game)
| CallGetGameImage (g : Game)
| CallOnRefresh.

(** State of a running front end: the screen [Scr] at hand, the effects so
    far and the host. *)
Record St (Scr E : Type) : Type := mkSt {
  screen : Scr;
  trace : list event;
  world : E
}.
Arguments mkSt {Scr E} _ _ _.
Arguments screen {Scr E} _.
Arguments trace {Scr E} _.
Arguments world {Scr E} _.

Definition M (Scr E A : Type) : Type := Prog.M (St Scr E) A.

Definition emit {Scr E} (e : event) : M Scr E unit :=
  fun s => (Done tt, mkSt (screen s) (trace s ++ [e]) (world s)).

Definition read {Scr E A} (f : E -> A) : M Scr E A :=
  fun s => (Done (f (world s)), s).

Definition call {Scr E A} (ev : event) (f : E -> A * E) : M Scr E A :=
  fun s =>
    let '(a, w) := f (world s) in
    (Done a, mkSt (screen s) (trace s ++ [ev]) w).

Definition get {Scr E} : M Scr E Scr := fun s => (Done (screen s), s).

Definition modify {Scr E} (f : Scr -> Scr) : M Scr E unit :=
  fun s => (Done tt, mkSt (f (screen s)) (trace s) (world s)).

(** ** Settings screen *)

(** The widgets of the main tab that its handlers touch, and the manager
    the screen points to. *)
Record SettingsScreen : Type := mkSettingsScreen {
  ss_Manager : Manager;
  path : Label;
  pathInfo : Label
}.

Definition set_path (f : Label -> Label) (w : SettingsScreen) : SettingsScreen :=
  mkSettingsScreen (ss_Manager w) (f (path w)) (pathInfo w).

Definition set_pathInfo (f : Label -> Label) (w : SettingsScreen)
  : SettingsScreen :=
  mkSettingsScreen (ss_Manager w) (path w) (f (pathInfo w)).

(** ** Game information screen *)

Record GameInfoScreen : Type := mkGameInfoScreen {
  m : Manager;
  c : Configurator;
  game : option Game;
  title : Label;
  desc : Label;
  version : Label;
  lang : Label;
  repository : Label;
  size : Label;
  image : Resource;
  hyperlink : Label;
  installButton : Label;
  runButton : Label;
  deleteButton : Label
}.

Definition set_game (g : option Game) (s : GameInfoScreen) : GameInfoScreen :=
  mkGameInfoScreen (m s) (c s) g (title s) (desc s) (version s) (lang s)
    (repository s) (size s) (image s) (hyperlink s) (installButton s)
    (runButton s) (deleteButton s).

Definition set_title (f : Label -> Label) (s : GameInfoScreen) : GameInfoScreen :=
  mkGameInfoScreen (m s) (c s) (game s) (f (title s)) (desc s) (version s)
    (lang s) (repository s) (size s) (image s) (hyperlink s)
    (installButton s) (runButton s) (deleteButton s).

Definition set_desc (f : Label -> Label) (s : GameInfoScreen) : GameInfoScreen :=
  mkGameInfoScreen (m s) (c s) (game s) (title s) (f (desc s)) (version s)
    (lang s) (repository s) (size s) (image s) (hyperlink s)
    (installButton s) (runButton s) (deleteButton s).

Definition set_version (f : Label -> Label) (s : GameInfoScreen) : GameInfoScreen :=
  mkGameInfoScreen (m s) (c s) (game s) (title s) (desc s) (f (version s))
    (lang s) (repository s) (size s) (image s) (hyperlink s)
    (installButton s) (runButton s) (deleteButton s).

Definition set_lang (f : Label -> Label) (s : GameInfoScreen) : GameInfoScreen :=
  mkGameInfoScreen (m s) (c s) (game s) (title s) (desc s) (version s)
    (f (lang s)) (repository s) (size s) (image s) (hyperlink s)
    (installButton s) (runButton s) (deleteButton s).

Definition set_repository (f : Label -> Label) (s : GameInfoScreen)
  : GameInfoScreen :=
  mkGameInfoScreen (m s) (c s) (game s) (title s) (desc s) (version s)
    (lang s) (f (repository s)) (size s) (image s) (hyperlink s)
    (installButton s) (runButton s) (deleteButton s).

Definition set_size (f : Label -> Label) (s : GameInfoScreen) : GameInfoScreen :=
  mkGameInfoScreen (m s) (c s) (game s) (title s) (desc s) (version s)
    (lang s) (repository s) (f (size s)) (image s) (hyperlink s)
    (installButton s) (runButton s) (deleteButton s).

Definition set_image (r : Resource) (s : GameInfoScreen) : GameInfoScreen :=
  mkGameInfoScreen (m s) (c s) (game s) (title s) (desc s) (version s)
    (lang s) (repository s) (size s) r (hyperlink s)
    (installButton s) (runButton s) (deleteButton s).

Definition set_hyperlink (f : Label -> Label) (s : GameInfoScreen)
  : GameInfoScreen :=
  mkGameInfoScreen (m s) (c s) (game s) (title s) (desc s) (version s)
    (lang s) (repository s) (size s) (image s) (f (hyperlink s))
    (installButton s) (runButton s) (deleteButton s).

Definition set_installButton (f : Label -> Label) (s : GameInfoScreen)
  : GameInfoScreen :=
  mkGameInfoScreen (m s) (c s) (game s) (title s) (desc s) (version s)
    (lang s) (repository s) (size s) (image s) (hyperlink s)
    (f (installButton s)) (runButton s) (deleteButton s).

Definition set_runButton (f : Label -> Label) (s : GameInfoScreen)
  : GameInfoScreen :=
  mkGameInfoScreen (m s) (c s) (game s) (title s) (desc s) (version s)
    (lang s) (repository s) (size s) (image s) (hyperlink s)
    (installButton s) (f (runButton s)) (deleteButton s).

Definition set_deleteButton (f : Label -> Label) (s : GameInfoScreen)
  : GameInfoScreen :=
  mkGameInfoScreen (m s) (c s) (game s) (title s) (desc s) (version s)
    (lang s) (repository s) (size s) (image s) (hyperlink s)
    (installButton s) (runButton s) (f (deleteButton s)).

Section Screens.

Context {E : Type}.
Variable ops : Ops E.

(** [float64(size) >= float64(total)], as the toolkit's host computes
    it. *)
Variable float64_ge : Z -> Z -> bool.

(** The [onRefresh] callback handed to [NewGameInfoScreen]; it acts on
    the rest of the program, seen here as part of the host. *)
Variable onRefresh : option (E -> E).

(** *** [makeMainTab]: the Detect and Check buttons *)

Definition makeMainTab_widgets (mgr : Manager) : SettingsScreen :=
  let path := mkLabel (InterpreterCommand (Config_ mgr)) false in
  let pathInfo := Hide (mkLabel "" false) in
  mkSettingsScreen mgr path pathInfo.

Definition detectButton_OnTapped : M SettingsScreen E unit :=
  modify (set_pathInfo (SetText "Detecting...")) ;;
  modify (set_pathInfo Show) ;;
  win <- get ;;
  command <- read (fun w =>
    InterpreterFinder.Find (platform ops) (host ops w)
                           (Finder (ss_Manager win))) ;;
  match command with
  | Some p =>
      modify (set_path (SetText p)) ;;
      modify (set_pathInfo (SetText "INSTEAD has detected!"))
  | None =>
      modify (set_pathInfo (SetText "INSTEAD hasn't detected!"))
  end.

Definition checkButton_OnTapped : M SettingsScreen E unit :=
  win <- get ;;
  cmd <- read (Manager_InterpreterCommand ops (ss_Manager win)) ;;
  r <- read (fun w =>
    InterpreterFinder.Check (platform ops) (host ops w)
                            (Finder (ss_Manager win)) cmd) ;;
  let '(version, checkErr) := r in
  txt <- (if not_nil checkErr then
            builtin <- read (IsBuiltinInterpreterCommand ops (ss_Manager win)) ;;
            if builtin : bool
            then ret "INSTEAD built-in check failed!"
            else ret "INSTEAD check failed!"
          else ret (Sprintf "INSTEAD %s has found!" [version])) ;;
  modify (set_pathInfo (SetText txt)) ;;
  modify (set_pathInfo Show).

(** *** Game information screen *)

(** [scr.game] points to a [Game]; the [game] field of the screen holds
    the pointed record, so that a write through the pointer is a write
    to that field.  [UpdateInfo] receives the record its argument points
    to. *)
Definition UpdateInfo (g : Game) : M GameInfoScreen E unit :=
  modify (set_game (Some g)) ;;
  modify (set_title (SetText (Title g))) ;;
  modify (set_desc (SetText (Description g))) ;;
  modify (set_version (SetText (Version g))) ;;
  modify (set_lang (SetText (Join (elems (Languages g)) ", "))) ;;
  modify (set_repository (SetText (RepositoryName g))) ;;
  when (negb (String.eqb (Descurl g) ""))
    (modify (set_hyperlink (SetText (Descurl g))) ;;
     modify (set_hyperlink Show)) ;;
  modify (set_size (SetText (HumanSize ops g))) ;;
  modify (set_size Show) ;;
  (if Installed g then
     modify (set_installButton Hide) ;;
     modify (set_runButton Show) ;;
     modify (set_deleteButton Show)
   else
     modify (set_installButton Show) ;;
     modify (set_runButton Hide) ;;
     modify (set_deleteButton Hide)) ;;
  modify (set_image InsteadManLogo) ;;
  scr <- get ;;
  r <- call (CallGetGameImage g) (GetGameImage ops (m scr) g) ;;
  let '(fileName, e) := r in
  when (is_nil e)
    (r <- read (os_ReadFile ops (DataResourcePath ops (c scr) fileName)) ;;
     let '(b, e) := r in
     match e with
     | Some err => emit (Print (Sprintf ("Error: %v" ++ NL) [Error ops err]))
     | None => modify (set_image (StaticResource ("game_" ++ Name g) b))
     end).

Definition call_onRefresh : M GameInfoScreen E unit :=
  match onRefresh with
  | Some f => call CallOnRefresh (fun w => (tt, f w))
  | None => ret tt
  end.

Definition installButton_OnTapped : M GameInfoScreen E unit :=
  scr <- get ;;
  g <- deref (game scr) ;;
  emit (ProgressShow (Title g) "Installing...") ;;
  r <- call (CallInstallGame g) (InstallGame ops (m scr) g) ;;
  let '(sizes, g', err) := r in
  modify (set_game (Some g')) ;;
  forEach sizes (fun size =>
    emit (ProgressSetValue (Ratio size (Size g))) ;;
    when (float64_ge size (Size g))
      (emit (ProgressSetValue Full) ;; emit ProgressHide)) ;;
  match err with
  | Some e =>
      emit ProgressHide ;;
      emit (ShowError e)
  | None =>
      scr <- get ;;
      g <- deref (game scr) ;;
      modify (set_game (Some (set_Installed true g))) ;;
      scr <- get ;;
      g <- deref (game scr) ;;
      UpdateInfo g ;;
      call_onRefresh
  end.

Definition runButton_OnTapped : M GameInfoScreen E unit :=
  scr <- get ;;
  g <- deref (game scr) ;;
  r <- call (CallRunGame g) (RunGame ops (m scr) g) ;;
  let '(g', _) := r in
  modify (set_game (Some g')).

Definition deleteButton_OnTapped : M GameInfoScreen E unit :=
  scr <- get ;;
  g <- deref (game scr) ;;
  r <- call (CallRemoveGame g) (RemoveGame ops (m scr) g) ;;
  let '(g', _) := r in
  modify (set_game (Some g')) ;;
  (* TODO: Check error *)
  scr <- get ;;
  g <- deref (game scr) ;;
  modify (set_game (Some (set_Installed false g))) ;;
  scr <- get ;;
  g <- deref (game scr) ;;
  UpdateInfo g ;;
  call_onRefresh.

Definition NewGameInfoScreen (mgr : Manager) (cfg : Configurator)
  : GameInfoScreen :=
  let image := InsteadManLogo in
  let title := mkLabel "InsteadMan" false in
  let desc := mkLabel "Выберите игру слева в списке" false in
  let size := Hide (mkLabel "" false) in
  let hyperlink := Hide (mkLabel "Website" false) in
  let installButton := Hide (mkLabel "Install" false) in
  let runButton := Hide (mkLabel "Run" false) in
  let deleteButton := Hide (mkLabel "Delete" false) in
  let version := mkLabel "" false in
  let lang := mkLabel "" false in
  let repository := mkLabel "" false in
  mkGameInfoScreen mgr cfg None title desc version lang repository size
    image hyperlink installButton runButton deleteButton.

End Screens.

End Fyne.

(* ================================================================= *)
(** * The GTK front end: error dialogs *)

Module Gtk.
Import Go Prog.
Open Scope prog_scope.

(** A window of the application is known by its handle. *)
Definition Window : Type := Z.

Inductive ResponseType : Type :=
| RESPONSE_ACCEPT.

Inductive WindowPosition : Type :=
| WIN_POS_NONE
| WIN_POS_CENTER.

(** Widgets live in a store and are used through pointers, here addresses in
    the store: the label added to the box is the label the code goes on
    calling methods on. *)
Definition addr : Type := nat.

Record Dialog : Type := mkDialog {
  d_title : string;
  d_buttons : list (string * ResponseType);
  d_contentArea : addr;
  d_modal : bool;
  d_position : WindowPosition;
  d_resizable : bool;
  d_transientFor : option Window;
  d_keepAbove : bool
}.

Record Box : Type := mkBox {
  b_spacing : Z;
  b_children : list addr
}.

Record Label : Type := mkLabel {
  l_text : string;
  l_marginStart : Z;
  l_marginEnd : Z;
  l_lineWrap : bool;
  l_shown : bool
}.

Inductive Widget : Type :=
| WDialog (d : Dialog)
| WBox (b : Box)
| WLabel (l : Label).

(** Whether the constructors of the toolkit fail on this host; the code
    drops their errors and goes on with the nil pointer. *)
Record Host : Type := mkHost {
  DialogNew_fails : bool;
  GetContentArea_fails : bool;
  LabelNew_fails : bool
}.

(** What the function does to the outside: a line in the log, a dialog run
    and a dialog destroyed. *)
Inductive event : Type :=
| Log (line : string)
| Run (dlg : addr)
| Destroy (dlg : addr).

Record St : Type := mkSt {
  store : list Widget;
  trace : list event
}.

Definition M (A : Type) : Type := Prog.M St A.

Definition emit (e : event) : M unit :=
  fun s => (Done tt, mkSt (store s) (trace s ++ [e])).

Definition alloc (w : Widget) : M addr :=
  fun s => (Done (length (store s)), mkSt (store s ++ [w]) (trace s)).

Fixpoint update {A} (n : nat) (f : A -> A) (l : list A) : list A :=
  match l, n with
  | [], _ => []
  | x :: rest, O => f x :: rest
  | x :: rest, S n' => x :: update n' f rest
  end.

(** A method called through the pointer [p]: a nil pointer, or one that does
    not point to a widget of the kind of the method, panics. *)
Definition onDialog (p : option addr) (f : Dialog -> Dialog) : M unit :=
  a <- deref p ;;
  fun s =>
    match nth_error (store s) a with
    | Some (WDialog _) =>
        (Done tt,
         mkSt (update a (fun w => match w with
                                  | WDialog d => WDialog (f d)
                                  | _ => w
                                  end) (store s)) (trace s))
    | _ => (Panic, s)
    end.

Definition onBox (p : option addr) (f : Box -> Box) : M unit :=
  a <- deref p ;;
  fun s =>
    match nth_error (store s) a with
    | Some (WBox _) =>
        (Done tt,
         mkSt (update a (fun w => match w with
                                  | WBox b => WBox (f b)
                                  | _ => w
                                  end) (store s)) (trace s))
    | _ => (Panic, s)
    end.

Definition onLabel (p : option addr) (f : Label -> Label) : M unit :=
  a <- deref p ;;
  fun s =>
    match nth_error (store s) a with
    | Some (WLabel _) =>
        (Done tt,
         mkSt (update a (fun w => match w with
                                  | WLabel l => WLabel (f l)
                                  | _ => w
                                  end) (store s)) (trace s))
    | _ => (Panic, s)
    end.

(** [gtk.DialogNew()]: a dialog with its content area, or nil. *)
Definition DialogNew (h : Host) : M (option addr) :=
  if DialogNew_fails h then ret None
  else
    box <- alloc (WBox (mkBox 0 [])) ;;
    dlg <- alloc (WDialog (mkDialog "" [] box false WIN_POS_NONE true None false)) ;;
    ret (Some dlg).

Definition GetContentArea (h : Host) (p : option addr) : M (option addr) :=
  a <- deref p ;;
  fun s =>
    match nth_error (store s) a with
    | Some (WDialog d) =>
        if GetContentArea_fails h then (Done None, s)
        else (Done (Some (d_contentArea d)), s)
    | _ => (Panic, s)
    end.

Definition LabelNew (h : Host) (txt : string) : M (option addr) :=
  if LabelNew_fails h then ret None
  else
    lbl <- alloc (WLabel (mkLabel txt 0 0 false false)) ;;
    ret (Some lbl).

Definition SetTitle (t : string) (d : Dialog) : Dialog :=
  mkDialog t (d_buttons d) (d_contentArea d) (d_modal d) (d_position d)
           (d_resizable d) (d_transientFor d) (d_keepAbove d).

Definition AddButton (t : string) (r : ResponseType) (d : Dialog) : Dialog :=
  mkDialog (d_title d) (d_buttons d ++ [(t, r)]) (d_contentArea d) (d_modal d)
           (d_position d) (d_resizable d) (d_transientFor d) (d_keepAbove d).

Definition SetModal (b : bool) (d : Dialog) : Dialog :=
  mkDialog (d_title d) (d_buttons d) (d_contentArea d) b (d_position d)
           (d_resizable d) (d_transientFor d) (d_keepAbove d).

Definition SetPosition (p : WindowPosition) (d : Dialog) : Dialog :=
  mkDialog (d_title d) (d_buttons d) (d_contentArea d) (d_modal d) p
           (d_resizable d) (d_transientFor d) (d_keepAbove d).

Definition SetResizable (b : bool) (d : Dialog) : Dialog :=
  mkDialog (d_title d) (d_buttons d) (d_contentArea d) (d_modal d)
           (d_position d) b (d_transientFor d) (d_keepAbove d).

Definition SetTransientFor (w : Window) (d : Dialog) : Dialog :=
  mkDialog (d_title d) (d_buttons d) (d_contentArea d) (d_modal d)
           (d_position d) (d_resizable d) (Some w) (d_keepAbove d).

Definition SetKeepAbove (b : bool) (d : Dialog) : Dialog :=
  mkDialog (d_title d) (d_buttons d) (d_contentArea d) (d_modal d)
           (d_position d) (d_resizable d) (d_transientFor d) b.

Definition SetSpacing (n : Z) (b : Box) : Box := mkBox n (b_children b).

Definition Add (child : addr) (b : Box) : Box :=
  mkBox (b_spacing b) (b_children b ++ [child]).

Definition SetMarginStart (n : Z) (l : Label) : Label :=
  mkLabel (l_text l) n (l_marginEnd l) (l_lineWrap l) (l_shown l).

Definition SetMarginEnd (n : Z) (l : Label) : Label :=
  mkLabel (l_text l) (l_marginStart l) n (l_lineWrap l) (l_shown l).

Definition SetLineWrap (b : bool) (l : Label) : Label :=
  mkLabel (l_text l) (l_marginStart l) (l_marginEnd l) b (l_shown l).

Definition Show (l : Label) : Label :=
  mkLabel (l_text l) (l_marginStart l) (l_marginEnd l) (l_lineWrap l) true.

Definition showErrorDlg (h : Host) (txt : string) (fatal : bool)
           (parent : option Window) : M unit :=
  emit (Log (Sprintf "Error: %v" [txt])) ;;
  dlg <- DialogNew h ;;
  onDialog dlg (SetTitle "InsteadMan error") ;;
  onDialog dlg (AddButton "Close" RESPONSE_ACCEPT) ;;
  dlgBox <- GetContentArea h dlg ;;
  onBox dlgBox (SetSpacing 6) ;;
  lbl <- LabelNew h txt ;;
  onLabel lbl (SetMarginStart 6) ;;
  onLabel lbl (SetMarginEnd 6) ;;
  onLabel lbl (SetLineWrap true) ;;
  child <- deref lbl ;;
  onBox dlgBox (Add child) ;;
  onLabel lbl Show ;;
  onDialog dlg (SetModal true) ;;
  onDialog dlg (SetPosition WIN_POS_CENTER) ;;
  onDialog dlg (SetResizable false) ;;
  when (not_nil parent)
    (w <- deref parent ;; onDialog dlg (SetTransientFor w)) ;;
  onDialog dlg (SetKeepAbove true) ;;
  d <- deref dlg ;;
  emit (Run d) ;;
  emit (Destroy d) ;;
  when fatal (os_Exit 1).

Definition ShowErrorDlgFatal (h : Host) (txt : string) (parent : option Window)
  : M unit :=
  showErrorDlg h txt true parent.

Definition ShowErrorDlg (h : Host) (txt : string) (parent : option Window)
  : M unit :=
  showErrorDlg h txt false parent.

End Gtk.

(* ================================================================= *)
(** * Vocabulary of the specification *)

Module Spec.
Import Go Manager.

(** [os.Stat] of [path] returns a nil error. *)
Definition stat_succeeds (os : OS) (path : string) : bool :=
  match os_stat os path with
  | inl _ => true
  | inr _ => false
  end.

(** A byte that is neither a line feed nor a carriage return. *)
Definition not_line_ending (ch : ascii) : bool :=
  negb (Ascii.eqb ch LF) && negb (Ascii.eqb ch CR).

(** The name of [g] is the keyword, letter case apart: both have the same
    lower-case form. *)
Definition name_matches {E} (ops : Ops E) (keyword : string) (g : Game) : bool :=
  String.eqb (ToLowerWith (unicodeLower ops) (Name g))
             (ToLowerWith (unicodeLower ops) keyword).

(** [l] splits as [pre ++ x :: post] where [x] is the first element that
    satisfies [p]. *)
Definition first_such {A} (p : A -> bool) (l : list A) (x : A) : Prop :=
  exists pre post,
    l = (pre ++ x :: post)%list /\ p x = true /\ forallb (fun y => negb (p y)) pre = true.

(** The line the command-line program prints when no game answers the
    keyword. *)
Definition not_found_message (cli : Cli.Pkg) (keyword : string) : Cli.event :=
  Cli.Print (Sprintf ("Game %s has not found" ++ Prog.NL)
                     [Cli.FmtName cli keyword]).

(** The same game, filed under repository [r g]. *)
Definition relabel (r : Game -> string) (g : Game) : Game :=
  set_RepositoryName (r g) g.

Definition map_done {A B S} (f : A -> B) (r : Prog.outcome A * S)
  : Prog.outcome B * S :=
  match r with
  | (Prog.Done a, s) => (Prog.Done (f a), s)
  | (Prog.Exit code, s) => (Prog.Exit code, s)
  | (Prog.Panic, s) => (Prog.Panic, s)
  end.

(** The two lines the [run] command prints for a game that is not
    installed. *)
Definition not_installed_messages (cli : Cli.Pkg) (g : Game) : list Cli.event :=
  [Cli.Print (Sprintf ("Game %s isn't installed." ++ Prog.NL)
                      [Cli.FmtName cli (Title g)]);
   Cli.Print (Sprintf ("Please run for installation:" ++ Prog.NL ++
                       "insteadman install %s" ++ Prog.NL) [Name g])].

(** A call of [RunGame] for an installed game, or any other event. *)
Definition run_ok (ev : Cli.event) : bool :=
  match ev with
  | Cli.CallRunGame g => Installed g
  | _ => true
  end.

(** The progress dialog events of an installation whose callback is
    invoked with [sizes], for a game of size [total]. *)
Definition progress_events (float64_ge : Z -> Z -> bool) (total : Z)
           (sizes : list Z) : list Fyne.event :=
  flat_map (fun size =>
              Fyne.ProgressSetValue (Fyne.Ratio size total)
              :: (if float64_ge size total
                  then [Fyne.ProgressSetValue Fyne.Full; Fyne.ProgressHide]
                  else []))
           sizes.

(** The buttons of the game information screen offer what fits an
    installed game ([Run] and [Delete]) or a game that is not installed
    ([Install]). *)
Definition buttons_fit (installed : bool) (scr : Fyne.GameInfoScreen) : Prop :=
  Fyne.Hidden (Fyne.installButton scr) = installed
  /\ Fyne.Hidden (Fyne.runButton scr) = negb installed
  /\ Fyne.Hidden (Fyne.deleteButton scr) = negb installed.

(** ** A program logic for the command-line programs

    [triple ok c Q]: run from a state whose trace has only events allowed
    by [ok], the computation [c] ends in such a state again and, when it
    returns a value, the value satisfies [Q]. *)
Definition allowed {E} (ok : Cli.event -> bool) (s : Cli.St E) : Prop :=
  forallb ok (Cli.trace s) = true.

Definition triple {E A} (ok : Cli.event -> bool)
           (c : Cli.M E A) (Q : A -> Prop) : Prop :=
  forall s,
    allowed ok s ->
    allowed ok (snd (c s)) /\ forall a, fst (c s) = Prog.Done a -> Q a.

(** The command [main] dispatches on for the program arguments
    [os_Args]. *)
Definition command_of {E} (ops : Ops E) (cli : Cli.Pkg) (os_Args : list string)
  : string :=
  ToLowerWith (unicodeLower ops) (Cli.GetCommand cli (skipn 1 os_Args)).

Definition is_update (ev : Cli.event) : bool :=
  match ev with
  | Cli.CallUpdateRepositories => true
  | _ => false
  end.

Definition no_update (ev : Cli.event) : bool := negb (is_update ev).

(** The calls into the manager among the events, in order. *)
Definition calls_of (evs : list Cli.event) : list Cli.event :=
  filter (fun ev => match ev with Cli.Print _ => false | _ => true end) evs.

(** ** Vocabulary of the further properties *)

(** The line [printGames] prints for a game. *)
Definition game_line (cli : Cli.Pkg) (g : Game) : string :=
  Sprintf ("%s, %s, %s " ++ Cli.FmtLang cli "%v" ++ " %s" ++ Prog.NL)
          [Cli.FmtTitle cli (Title g); Cli.FmtName cli (Name g);
           Cli.FmtRepo cli (RepositoryName g);
           fmt_strings (Prog.elems (Languages g));
           if Installed g then Cli.FmtInstalled cli "[installed]" else ""].

(** What [printHelpAndExit] prints. *)
Definition help_events {E} (ops : Ops E) (cli : Cli.Pkg) : list Cli.event :=
  [Cli.Print (Cli.color_Cyan cli Cli.asciiArt);
   Cli.Print (Sprintf (Prog.NL ++ Cli.BoldSprint cli "InsteadMan CLI" ++
                       " %s — INSTEAD games manager (launcher)" ++
                       Prog.NL ++ Prog.NL)
                      [manager_Version ops]);
   Cli.Print (Cli.usageText cli)].

(** The commands [runCommand] knows. *)
Definition known_commands : list string :=
  ["update"; "list"; "search"; "show"; "run"; "install"; "remove";
   "findinterpreter"; "repositories"; "langs"; "configpath"; "version"].

(** What [update] does when [UpdateRepositories] returns [errors]. *)
Definition update_events {E} (ops : Ops E) (errors : option (list error))
  : list Cli.event :=
  ([Cli.Print ("Updating repositories..." ++ Prog.NL);
    Cli.CallUpdateRepositories]
   ++ (if not_nil errors
       then [Cli.Print ("There are errors:" ++ Prog.NL)] else [])
   ++ map (fun e => Cli.Print (Error ops e ++ Prog.NL)) (Prog.elems errors)
   ++ [Cli.Print ("Repositories have updated." ++ Prog.NL)])%list.

(** Any event but a search for the interpreter or a write of the
    configuration. *)
Definition no_detect (ev : Cli.event) : bool :=
  match ev with
  | Cli.CallFind => false
  | Cli.CallSaveConfig _ => false
  | _ => true
  end.

Definition is_progress_hide (ev : Fyne.event) : bool :=
  match ev with
  | Fyne.ProgressHide => true
  | _ => false
  end.

Definition is_error_dialog (ev : Fyne.event) : bool :=
  match ev with
  | Fyne.ShowError _ => true
  | _ => false
  end.

(** The widgets [showErrorDlg] adds to a store that holds [base] widgets:
    the content area, the dialog and the label, in the order of their
    creation. *)
Definition error_dialog_store (base : nat) (txt : string)
           (parent : option Gtk.Window) : list Gtk.Widget :=
  [Gtk.WBox (Gtk.mkBox 6 [(base + 2)%nat]);
   Gtk.WDialog (Gtk.mkDialog "InsteadMan error"
                  [("Close", Gtk.RESPONSE_ACCEPT)] base true
                  Gtk.WIN_POS_CENTER false parent true);
   Gtk.WLabel (Gtk.mkLabel txt 6 6 true true)].

End Spec.

(* ================================================================= *)
(** * A small host on which the programs can be run *)

Module Sample.
Import Go Manager.

(** The host: whether repository data has been downloaded, the files
    [os.Stat] finds, and whether the file system refuses writes. *)
Record Host : Type := mkHost {
  downloaded : bool;
  files : list string;
  readOnly : bool
}.

Definition denied : string := "/opt/instead/secret/instead/sdl-instead".

Definition sampleOS (h : Host) : OS :=
  mkOS
    (fun p =>
       if String.eqb p denied then inr (ErrPermission p)
       else if existsb (String.eqb p) (files h)
            then inl (mkFileInfo 420 false 1024)
            else inr (ErrNotExist p))
    (fun name args =>
       if existsb (String.eqb name) (files h) then
         match args with
         | ["-version"] =>
             if String.eqb name "/usr/bin/false" then Exited 1 "oops"
             else Exited 0 ("3.3.2" ++ str1 CR ++ str1 LF)
         | _ => Exited 0 ""
         end
       else SpawnFailed (ErrNotExist name)).

Definition samplePlatform : InterpreterFinder.Platform :=
  InterpreterFinder.mkPlatform
    "instead/sdl-instead"
    ["/usr/bin/instead"; "/usr/local/bin/instead"; "/usr/bin/sdl-instead"]
    (fun cmd => cmd)
    (fun a b => a ++ "/" ++ b).

Definition galaxy : Game :=
  mkGame "galaxy" "Galaxy Quest" "" "1.0" (Some ["en"; "ru"]) "official"
         "" "http://example.org/galaxy.zip" 1000 20200101 true.

Definition cat : Game :=
  mkGame "cat" "Returning the Quantum Cat" "" "2.1" (Some ["ru"]) "official"
         "" "http://example.org/cat.zip" 2000 20190101 false.

Definition Cat_sandbox : Game :=
  mkGame "Cat" "Cat (sandbox build)" "" "0.1" None "sandbox"
         "" "http://example.org/sandbox/cat.zip" 500 20180101 false.

Definition catalog : list Game := [galaxy; cat; Cat_sandbox].

Definition contains (needle hay : string) : bool :=
  match String.index 0 needle hay with
  | Some _ => true
  | None => false
  end.

Definition lower : string -> string := ToLowerWith (fun s => s).

Definition sampleFilter (games : list Game)
           (keyword repository lang : option string) (onlyInstalled : bool)
  : list Game :=
  filter (fun g =>
            match keyword with
            | Some k => contains (lower k) (lower (Name g))
                        || contains (lower k) (lower (Title g))
            | None => true
            end
            && match repository with
               | Some r => String.eqb r (RepositoryName g)
               | None => true
               end
            && match lang with
               | Some l => existsb (String.eqb l) (Prog.elems (Languages g))
               | None => true
               end
            && (negb onlyInstalled || Installed g))
         games.

(** On a read-only host installing and removing fail, and leave the game
    record as it is. *)
Definition sampleOps : Ops Host :=
  mkOps
    "3.0"
    (fun _ h => downloaded h)
    (fun _ h => (None, mkHost true (files h) (readOnly h)))
    (fun _ h => ((catalog, None), h))
    (fun _ h => ((catalog, None), h))
    sampleFilter
    (fun _ g h =>
       if readOnly h then (([], g, Some (ErrPermission (Name g))), h)
       else (([Size g], g, None), h))
    (fun _ g h => ((g, None), h))
    (fun _ g h =>
       if readOnly h then ((g, Some (ErrPermission (Name g))), h)
       else ((g, None), h))
    (fun _ g h => ((Name g ++ ".png", None), h))
    (fun _ _ _ => ["en"; "ru"])
    (fun _ _ => [mkRepository "official" "http://example.org/repo.xml"])
    (fun mgr _ => InterpreterCommand (Config_ mgr))
    (fun mgr _ => String.eqb (InterpreterCommand (Config_ mgr)) "")
    (fun _ => "1 KB")
    (fun g => Version g)
    (fun cfg h =>
       ((mkConfigurator "/home/user/.config/insteadman/config.yml"
                        (cfg_CurrentDir cfg) (cfg_Version cfg),
         mkConfig "/usr/bin/instead" "en" "/home/user/.local/share/insteadman",
         None), h))
    (fun _ _ h => (None, h))
    (fun _ name => "/home/user/.local/share/insteadman/" ++ name)
    (fun p => ("/opt/insteadman", None))
    (fun _ _ => "100%")
    (fun _ => ("/opt/insteadman/insteadman", None))
    (fun p _ => ("", Some (ErrNotExist p)))
    sampleOS
    samplePlatform
    (fun s => s)
    (fun e =>
       match e with
       | ErrNotExist p => p ++ ": no such file or directory"
       | ErrPermission p => p ++ ": permission denied"
       | ExitError _ => "exit status"
       | ErrOther msg => msg
       end).

Definition samplePkg : Cli.Pkg :=
  Cli.mkPkg
    (fun args => hd "" args)
    (fun args => nth_error args 1)
    (fun _ _ => None)
    (fun _ _ => false)
    (fun s => s) (fun s => s) (fun s => s) (fun s => s)
    (fun s => s) (fun s => s) (fun s => s) (fun s => s)
    (fun s => s) (fun s => s) (fun s => s) (fun s => s)
    (fun s => s).

Definition fresh : Host :=
  mkHost false ["/usr/local/bin/instead"; "/usr/bin/sdl-instead"] false.

Definition readOnlyHost : Host :=
  mkHost true ["/usr/local/bin/instead"] true.

Definition sampleFinder : InterpreterFinder.InterpreterFinder :=
  InterpreterFinder.mkFinder "/opt/instead/secret".

Definition sampleManager : Manager :=
  mkManager (mkConfig "/usr/local/bin/instead" "en" "/data") sampleFinder.

Definition sampleConfigurator : Configurator :=
  mkConfigurator "/home/user/.config/insteadman/config.yml"
                 "/opt/insteadman" "3.0".

(** The game information screen once [g] has been selected in the list. *)
Definition screenOf (g : Game) : Fyne.GameInfoScreen :=
  Fyne.set_game (Some g) (Fyne.NewGameInfoScreen sampleManager sampleConfigurator).

Definition float64_ge (a b : Z) : bool := (b <=? a)%Z.

End Sample.

(* ================================================================= *)
(** * Properties of the interpreter finder *)

Module FinderFacts.
Import Go InterpreterFinder Spec.

Section Facts.

Variable pf : Platform.
Variable os : OS.

(** The test made on every probed path, [exists && e == nil], is the
    test [e == nil]. *)
Lemma probe_is_stat (path : string) :
  (let '(_, e) := Stat os path in negb (IsNotExist e) && is_nil e)
  = stat_succeeds os path.
Proof.
  unfold Stat, stat_succeeds.
  destruct (os_stat os path) as [fi | e]; [reflexivity |].
  cbn [is_nil]. apply andb_false_r.
Qed.

Lemma Find_loop_step (path : string) (rest : list string) :
  Find_loop os (path :: rest)
  = if stat_succeeds os path then Some path else Find_loop os rest.
Proof.
  rewrite <- probe_is_stat. simpl.
  destruct (Stat os path) as [fi e]. reflexivity.
Qed.

Lemma Find_loop_first (paths : list string) (p : string) :
  Find_loop os paths = Some p <-> first_such (stat_succeeds os) paths p.
Proof.
  induction paths as [| q rest IH].
  - split; [discriminate |].
    intros (pre & post & Heq & _). destruct pre; discriminate.
  - rewrite Find_loop_step.
    destruct (stat_succeeds os q) eqn:Hq.
    + split.
      * intros [= <-]. exists [], rest. auto.
      * intros (pre & post & Heq & Hp & Hpre).
        destruct pre as [| q' pre']; simpl in Heq; injection Heq as -> Hrest.
        -- reflexivity.
        -- simpl in Hpre. rewrite Hq in Hpre. discriminate.
    + rewrite IH. split.
      * intros (pre & post & -> & Hp & Hpre).
        exists (q :: pre), post. simpl. rewrite Hq. auto.
      * intros (pre & post & Heq & Hp & Hpre).
        destruct pre as [| q' pre']; simpl in Heq; injection Heq as -> Hrest.
        -- congruence.
        -- exists pre', post. simpl in Hpre. rewrite Hq in Hpre. auto.
Qed.

Lemma Find_loop_none (paths : list string) :
  Find_loop os paths = None
  <-> forallb (fun q => negb (stat_succeeds os q)) paths = true.
Proof.
  induction paths as [| q rest IH]; [easy |].
  rewrite Find_loop_step. simpl.
  destruct (stat_succeeds os q); simpl; [easy | exact IH].
Qed.

Lemma Replace_strips (s : string) :
  Replace (NewReplacer [(LF, ""); (CR, "")]) s
  = filterBytes not_line_ending s.
Proof.
  induction s as [| ch t IH]; [reflexivity |].
  cbn [Replace filterBytes]. rewrite IH.
  unfold not_line_ending. cbn [NewReplacer filter fst negb replacement].
  replace (Ascii.eqb CR LF) with false by reflexivity. cbn [negb filter replacement].
  rewrite (Ascii.eqb_sym LF ch), (Ascii.eqb_sym CR ch).
  destruct (Ascii.eqb ch LF); [reflexivity |].
  destruct (Ascii.eqb ch CR); reflexivity.
Qed.

End Facts.

(** Two hosts on which the same candidate paths stat successfully give
    [Find_loop] the same answer. *)
Lemma Find_loop_ext (os1 os2 : OS) (paths : list string) :
  (forall q, In q paths -> stat_succeeds os1 q = stat_succeeds os2 q) ->
  Find_loop os1 paths = Find_loop os2 paths.
Proof.
  induction paths as [| q rest IH]; intros H; [reflexivity |].
  rewrite !Find_loop_step, (H q (or_introl eq_refl)), IH; [reflexivity |].
  intros r Hr. apply H. right. exact Hr.
Qed.

(** C5.  [Find] returns the first path, in the order of the platform's
    candidate list, whose [os.Stat] succeeds: [Find] answers [p] exactly
    when the list splits as [pre ++ p :: post] with a successful stat of
    [p] and a failing one for every path of [pre].  It answers nil, not an
    error, exactly when the stat of every candidate fails.  Nothing but
    the success of the stat is looked at: two hosts that agree on it for
    the candidates get the same answer, whatever the files are and
    whatever running them would do. *)
Theorem Find_first_present
        (pf : Platform) (os : OS) (f : InterpreterFinder) :
  (forall p,
      Find pf os f = Some p
      <-> first_such (stat_succeeds os) (exactFilePaths pf) p)
  /\ (Find pf os f = None
      <-> forallb (fun q => negb (stat_succeeds os q)) (exactFilePaths pf)
          = true)
  /\ (forall os',
         (forall q, In q (exactFilePaths pf) ->
                    stat_succeeds os q = stat_succeeds os' q) ->
         Find pf os f = Find pf os' f).
Proof.
  unfold Find. split; [| split].
  - intros p. apply Find_loop_first.
  - apply Find_loop_none.
  - intros os' H. apply Find_loop_ext. exact H.
Qed.

Lemma Find_first_present_witness :
  Find Sample.samplePlatform (Sample.sampleOS Sample.fresh) Sample.sampleFinder
  = Some "/usr/local/bin/instead"
  /\ Find Sample.samplePlatform (Sample.sampleOS Sample.fresh)
          Sample.sampleFinder
     = Find Sample.samplePlatform
            (Sample.sampleOS
               (Sample.mkHost true
                  ["/usr/local/bin/instead"; "/usr/bin/sdl-instead"; "/bin/sh"]
                  true))
            Sample.sampleFinder.
Proof.
  split.
  - apply (proj1 (Find_first_present Sample.samplePlatform
                    (Sample.sampleOS Sample.fresh) Sample.sampleFinder)).
    exists ["/usr/bin/instead"], ["/usr/bin/sdl-instead"].
    repeat split; reflexivity.
  - apply (proj2 (proj2 (Find_first_present Sample.samplePlatform
                    (Sample.sampleOS Sample.fresh) Sample.sampleFinder))).
    intros q Hq. simpl in Hq.
    destruct Hq as [<- | [<- | [<- | []]]]; reflexivity.
Defined.

(** C9.  [HaveBuiltIn] is true exactly when the stat of the built-in
    relative path joined under [CurrentDir] returns a nil error; any stat
    error, permission denied as much as not-exist, makes it false.
    [FindBuiltin] returns the joined path when [HaveBuiltIn] is true and
    the empty string otherwise. *)
Theorem HaveBuiltIn_FindBuiltin
        (pf : Platform) (os : OS) (f : InterpreterFinder) :
  let joined := filepath_Join pf (CurrentDir f) (builtinRelativeFilePath pf) in
  (HaveBuiltIn pf os f = true <-> snd (Stat os joined) = None)
  /\ (forall e, snd (Stat os joined) = Some e -> HaveBuiltIn pf os f = false)
  /\ FindBuiltin pf os f = (if HaveBuiltIn pf os f then joined else "").
Proof.
  intros joined.
  assert (Hb : HaveBuiltIn pf os f = stat_succeeds os joined).
  { unfold HaveBuiltIn. fold joined. rewrite <- probe_is_stat.
    destruct (Stat os joined) as [fi e].
    destruct (negb (IsNotExist e) && is_nil e); reflexivity. }
  split; [| split].
  - rewrite Hb. unfold stat_succeeds, Stat.
    destruct (os_stat os joined); simpl; split; congruence.
  - intros e. rewrite Hb. unfold stat_succeeds, Stat.
    destruct (os_stat os joined); simpl; congruence.
  - unfold FindBuiltin. fold joined. reflexivity.
Qed.

Lemma HaveBuiltIn_FindBuiltin_witness :
  HaveBuiltIn Sample.samplePlatform (Sample.sampleOS Sample.fresh)
              Sample.sampleFinder = false.
Proof.
  apply (proj1 (proj2 (HaveBuiltIn_FindBuiltin Sample.samplePlatform
                         (Sample.sampleOS Sample.fresh) Sample.sampleFinder))
           (ErrPermission Sample.denied)).
  reflexivity.
Defined.

(** C2.  [Check] runs the expanded command with the single argument
    [-version].  When the process cannot be started, or exits with a
    status other than 0, the version is empty and the error is not nil;
    otherwise the error is nil and the version is the standard output
    without its line feeds and carriage returns. *)
Theorem Check_version
        (pf : Platform) (os : OS) (f : InterpreterFinder) (command : string) :
  Check pf os f command
  = match os_run os (ExpandInterpreterCommand pf command) ["-version"] with
    | SpawnFailed e => ("", Some e)
    | Exited code out =>
        if (code =? 0)%Z
        then (filterBytes not_line_ending out, None)
        else ("", Some (ExitError code))
    end.
Proof.
  unfold Check, Output, Command. simpl.
  destruct (os_run os (ExpandInterpreterCommand pf command) ["-version"])
    as [e | code out]; [reflexivity |].
  destruct (code =? 0)%Z; [| reflexivity].
  simpl. rewrite <- (Replace_strips out). reflexivity.
Qed.

Example Check_sample_version :
  Check Sample.samplePlatform (Sample.sampleOS Sample.fresh)
        Sample.sampleFinder "/usr/local/bin/instead"
  = ("3.3.2", None).
Proof. reflexivity. Qed.

Example Check_sample_missing :
  Check Sample.samplePlatform (Sample.sampleOS Sample.fresh)
        Sample.sampleFinder "/bin/nonexistent"
  = ("", Some (ErrNotExist "/bin/nonexistent")).
Proof. reflexivity. Qed.

Example Find_sample_nothing :
  Find Sample.samplePlatform (Sample.sampleOS (Sample.mkHost true [] false))
       Sample.sampleFinder
  = None.
Proof. reflexivity. Qed.

End FinderFacts.

(* ================================================================= *)
(** * Properties of the command-line front end *)

Module CliFacts.
Import Go Manager Prog Cli Spec.
Open Scope prog_scope.

Section Resolution.

Context {E : Type}.
Variable ops : Ops E.
Variable cli : Pkg.

Lemma loop_step (g : Game) (rest : list Game) (keyword : string) :
  getOrExitIfNoGame_loop ops (g :: rest) keyword
  = if name_matches ops keyword g then Some g
    else getOrExitIfNoGame_loop ops rest keyword.
Proof. reflexivity. Qed.

Lemma loop_first (games : list Game) (keyword : string) (g : Game) :
  getOrExitIfNoGame_loop ops games keyword = Some g
  <-> first_such (name_matches ops keyword) games g.
Proof.
  induction games as [| h rest IH].
  - split; [discriminate |].
    intros (pre & post & Heq & _). destruct pre; discriminate.
  - rewrite loop_step. destruct (name_matches ops keyword h) eqn:Hh.
    + split.
      * intros [= <-]. exists [], rest. auto.
      * intros (pre & post & Heq & Hg & Hpre).
        destruct pre as [| h' pre']; simpl in Heq; injection Heq as -> Hrest.
        -- reflexivity.
        -- simpl in Hpre. rewrite Hh in Hpre. discriminate.
    + rewrite IH. split.
      * intros (pre & post & -> & Hg & Hpre).
        exists (h :: pre), post. simpl. rewrite Hh. auto.
      * intros (pre & post & Heq & Hg & Hpre).
        destruct pre as [| h' pre']; simpl in Heq; injection Heq as -> Hrest.
        -- congruence.
        -- exists pre', post. simpl in Hpre. rewrite Hh in Hpre. auto.
Qed.

Lemma loop_none (games : list Game) (keyword : string) :
  getOrExitIfNoGame_loop ops games keyword = None
  <-> forallb (fun g => negb (name_matches ops keyword g)) games = true.
Proof.
  induction games as [| h rest IH]; [easy |].
  rewrite loop_step. simpl.
  destruct (name_matches ops keyword h); simpl; [easy | exact IH].
Qed.

Lemma getOrExitIfNoGame_nil (keyword : string) (s : St E) :
  getOrExitIfNoGame ops cli [] keyword s
  = (Exit 1, mkSt (trace s ++ [not_found_message cli keyword]) (world s)).
Proof. reflexivity. Qed.

Lemma getOrExitIfNoGame_cons
      (g0 : Game) (rest : list Game) (keyword : string) (s : St E) :
  getOrExitIfNoGame ops cli (g0 :: rest) keyword s
  = (Done (match getOrExitIfNoGame_loop ops (g0 :: rest) keyword with
           | Some g => g
           | None => g0
           end), s).
Proof.
  unfold getOrExitIfNoGame, bind, when, ret. cbn [length Nat.ltb Nat.leb].
  destruct (getOrExitIfNoGame_loop ops (g0 :: rest) keyword); reflexivity.
Qed.

End Resolution.

Lemma getOrExitIfNoGame_first
      {E : Type} (ops : Ops E) (cli : Pkg)
      (games : list Game) (keyword : string) (s : St E) (g : Game) :
  first_such (name_matches ops keyword) games g ->
  getOrExitIfNoGame ops cli games keyword s = (Done g, s).
Proof.
  intros Hg. pose proof Hg as Hloop. apply loop_first in Hloop.
  destruct games as [| g0 rest].
  - destruct Hg as (pre & post & Heq & _). destruct pre; discriminate.
  - rewrite getOrExitIfNoGame_cons, Hloop. reflexivity.
Qed.

(** C3.  With no candidate, keyword resolution prints the "has not
    found" line and exits with status 1.  With candidates it returns the
    first one whose name is the keyword, letter case apart, when there is
    one, and the first candidate otherwise.  The "has not found" exit
    happens exactly when the candidate sequence is empty. *)
Theorem getOrExitIfNoGame_resolution
        {E : Type} (ops : Ops E) (cli : Pkg)
        (games : list Game) (keyword : string) (s : St E) :
  (games = [] ->
   getOrExitIfNoGame ops cli games keyword s
   = (Exit 1, mkSt (trace s ++ [not_found_message cli keyword]) (world s)))
  /\ (forall g,
         first_such (name_matches ops keyword) games g ->
         getOrExitIfNoGame ops cli games keyword s = (Done g, s))
  /\ (forall g0 rest,
         games = g0 :: rest ->
         forallb (fun g => negb (name_matches ops keyword g)) games = true ->
         getOrExitIfNoGame ops cli games keyword s = (Done g0, s))
  /\ ((exists code s', getOrExitIfNoGame ops cli games keyword s = (Exit code, s'))
      <-> games = []).
Proof.
  split; [| split; [| split]].
  - intros ->. apply getOrExitIfNoGame_nil.
  - intros g Hg. apply getOrExitIfNoGame_first. exact Hg.
  - intros g0 rest -> Hnone. apply loop_none in Hnone.
    rewrite getOrExitIfNoGame_cons, Hnone. reflexivity.
  - split.
    + intros (code & s' & Hrun). destruct games as [| g0 rest]; [reflexivity |].
      rewrite getOrExitIfNoGame_cons in Hrun. discriminate.
    + intros ->. eexists _, _. apply getOrExitIfNoGame_nil.
Qed.

Lemma getOrExitIfNoGame_resolution_witness :
  getOrExitIfNoGame Sample.sampleOps Sample.samplePkg [] "zzz"
                    (mkSt [] Sample.fresh)
  = (Exit 1, mkSt [not_found_message Sample.samplePkg "zzz"] Sample.fresh)
  /\ getOrExitIfNoGame Sample.sampleOps Sample.samplePkg Sample.catalog "CAT"
                       (mkSt [] Sample.fresh)
     = (Done Sample.cat, mkSt [] Sample.fresh)
  /\ getOrExitIfNoGame Sample.sampleOps Sample.samplePkg Sample.catalog "qua"
                       (mkSt [] Sample.fresh)
     = (Done Sample.galaxy, mkSt [] Sample.fresh).
Proof.
  split; [| split].
  - apply (proj1 (getOrExitIfNoGame_resolution Sample.sampleOps
                    Sample.samplePkg [] "zzz" (mkSt [] Sample.fresh))).
    reflexivity.
  - apply (proj1 (proj2 (getOrExitIfNoGame_resolution Sample.sampleOps
                    Sample.samplePkg Sample.catalog "CAT"
                    (mkSt [] Sample.fresh)))).
    exists [Sample.galaxy], [Sample.Cat_sandbox]. repeat split; reflexivity.
  - apply (proj1 (proj2 (proj2 (getOrExitIfNoGame_resolution Sample.sampleOps
                    Sample.samplePkg Sample.catalog "qua"
                    (mkSt [] Sample.fresh))))
             Sample.galaxy [Sample.cat; Sample.Cat_sandbox]);
      reflexivity.
Defined.

Lemma name_matches_relabel {E : Type} (ops : Ops E)
      (keyword : string) (r : Game -> string) (g : Game) :
  name_matches ops keyword (relabel r g) = name_matches ops keyword g.
Proof. reflexivity. Qed.

Lemma loop_relabel {E : Type} (ops : Ops E)
      (keyword : string) (r : Game -> string) (games : list Game) :
  getOrExitIfNoGame_loop ops (map (relabel r) games) keyword
  = option_map (relabel r) (getOrExitIfNoGame_loop ops games keyword).
Proof.
  induction games as [| h rest IH]; [reflexivity |].
  cbn [map]. rewrite !loop_step, name_matches_relabel, IH.
  destruct (name_matches ops keyword h); reflexivity.
Qed.

(** C10.  When several candidates bear the keyword as their name, letter
    case apart, resolution returns the earliest of them in the order of
    the sequence.  Repositories play no part: filing the candidates under
    other repositories changes nothing but the repository of the game
    returned. *)
Theorem getOrExitIfNoGame_duplicates
        {E : Type} (ops : Ops E) (cli : Pkg) (keyword : string) (s : St E) :
  (forall pre g1 mid g2 post,
      forallb (fun g => negb (name_matches ops keyword g)) pre = true ->
      name_matches ops keyword g1 = true ->
      name_matches ops keyword g2 = true ->
      getOrExitIfNoGame ops cli (pre ++ g1 :: mid ++ g2 :: post) keyword s
      = (Done g1, s))
  /\ (forall (r : Game -> string) games,
         getOrExitIfNoGame ops cli (map (relabel r) games) keyword s
         = map_done (relabel r) (getOrExitIfNoGame ops cli games keyword s)).
Proof.
  split.
  - intros pre g1 mid g2 post Hpre H1 _.
    apply getOrExitIfNoGame_first.
    exists pre, (mid ++ g2 :: post)%list. auto.
  - intros r games. destruct games as [| g0 rest]; [reflexivity |].
    cbn [map]. rewrite !getOrExitIfNoGame_cons.
    change (relabel r g0 :: map (relabel r) rest)
      with (map (relabel r) (g0 :: rest)).
    rewrite loop_relabel.
    destruct (getOrExitIfNoGame_loop ops (g0 :: rest) keyword); reflexivity.
Qed.

Lemma getOrExitIfNoGame_duplicates_witness :
  getOrExitIfNoGame Sample.sampleOps Sample.samplePkg
    ([Sample.galaxy] ++ Sample.cat :: [] ++ Sample.Cat_sandbox :: []) "cat"
    (mkSt [] Sample.fresh)
  = (Done Sample.cat, mkSt [] Sample.fresh)
  /\ getOrExitIfNoGame Sample.sampleOps Sample.samplePkg
       ([Sample.galaxy] ++ Sample.Cat_sandbox :: [] ++ Sample.cat :: []) "cat"
       (mkSt [] Sample.fresh)
     = (Done Sample.Cat_sandbox, mkSt [] Sample.fresh).
Proof.
  split.
  - apply (proj1 (getOrExitIfNoGame_duplicates Sample.sampleOps
                    Sample.samplePkg "cat" (mkSt [] Sample.fresh))
             [Sample.galaxy] Sample.cat [] Sample.Cat_sandbox []);
      reflexivity.
  - apply (proj1 (getOrExitIfNoGame_duplicates Sample.sampleOps
                    Sample.samplePkg "cat" (mkSt [] Sample.fresh))
             [Sample.galaxy] Sample.Cat_sandbox [] Sample.cat []);
      reflexivity.
Defined.

(** ** Rules of the program logic *)

Section Logic.

Context {E : Type}.
Variable ok : event -> bool.

Lemma triple_ret {A} (a : A) (Q : A -> Prop) :
  Q a -> @triple E A ok (ret a) Q.
Proof. intros Ha s Hs. split; [exact Hs |]. intros b [= <-]. exact Ha. Qed.

Lemma triple_bind {A B} (c : M E A) (k : A -> M E B)
      (Q : A -> Prop) (R : B -> Prop) :
  triple ok c Q ->
  (forall a, Q a -> triple ok (k a) R) ->
  triple ok (bind c k) R.
Proof.
  intros Hc Hk s Hs. destruct (Hc s Hs) as [Hs' HQ].
  unfold bind. destruct (c s) as [[a | code |] s']; simpl in *.
  - apply (Hk a (HQ a eq_refl)). exact Hs'.
  - split; [exact Hs' | discriminate].
  - split; [exact Hs' | discriminate].
Qed.

Lemma triple_weaken {A} (c : M E A) (Q Q' : A -> Prop) :
  triple ok c Q -> (forall a, Q a -> Q' a) -> triple ok c Q'.
Proof.
  intros Hc HQ s Hs. destruct (Hc s Hs) as [Hs' Ha].
  split; [exact Hs' |]. intros a Hdone. apply HQ, Ha, Hdone.
Qed.

Lemma triple_seq {A B} (c : M E A) (k : M E B) (R : B -> Prop) :
  triple ok c (fun _ => True) -> triple ok k R ->
  triple ok (bind c (fun _ => k)) R.
Proof. intros Hc Hk. apply (triple_bind c _ (fun _ => True)); auto. Qed.

Lemma triple_emit (ev : event) :
  ok ev = true -> @triple E unit ok (emit ev) (fun _ => True).
Proof.
  intros Hev s Hs. split; [| auto].
  unfold allowed, emit in *. simpl.
  rewrite forallb_app, Hs. simpl. rewrite Hev. reflexivity.
Qed.

Lemma triple_call {A} (ev : event) (f : E -> A * E) :
  ok ev = true -> triple ok (call ev f) (fun _ => True).
Proof.
  intros Hev s Hs. split; [| auto].
  unfold allowed, call in *. destruct (f (world s)) as [a w]. simpl.
  rewrite forallb_app, Hs. simpl. rewrite Hev. reflexivity.
Qed.

Lemma triple_read {A} (f : E -> A) :
  triple ok (read f) (fun _ => True).
Proof. intros s Hs. split; [exact Hs | auto]. Qed.

Lemma triple_exit {A} (code : Z) (Q : A -> Prop) :
  @triple E A ok (os_Exit code) Q.
Proof. intros s Hs. split; [exact Hs | discriminate]. Qed.

Lemma triple_panic {A} (Q : A -> Prop) : @triple E A ok panic Q.
Proof. intros s Hs. split; [exact Hs | discriminate]. Qed.

Lemma triple_deref {A} (p : option A) :
  @triple E A ok (deref p) (fun a => p = Some a).
Proof.
  destruct p as [a |]; [| apply triple_panic].
  apply triple_ret. reflexivity.
Qed.

Lemma triple_slice {A} (n : nat) (l : list A) :
  @triple E _ ok (slice n l) (fun l' => l' = skipn n l).
Proof.
  unfold slice, slice_from. destruct (n <=? length l)%nat.
  - apply triple_ret. reflexivity.
  - apply triple_panic.
Qed.

(** A guarded block that never returns leaves the guard false. *)
Lemma triple_when_exits (b : bool) (c : M E unit) :
  triple ok c (fun _ => False) ->
  triple ok (when b c) (fun _ => b = false).
Proof.
  intros Hc. destruct b; simpl.
  - eapply triple_weaken; [exact Hc | contradiction].
  - apply triple_ret. reflexivity.
Qed.

Lemma triple_when (b : bool) (c : M E unit) :
  triple ok c (fun _ => True) -> triple ok (when b c) (fun _ => True).
Proof. intros Hc. destruct b; [exact Hc | apply triple_ret; exact I]. Qed.

Lemma triple_forEach {A} (l : list A) (body : A -> M E unit) :
  (forall x, triple ok (body x) (fun _ => True)) ->
  triple ok (forEach l body) (fun _ => True).
Proof.
  intros Hbody. induction l as [| x rest IH]; simpl.
  - apply triple_ret. exact I.
  - apply triple_seq; [apply Hbody | exact IH].
Qed.

Lemma triple_Printf (format : string) (args : list string) :
  ok (Print (Sprintf format args)) = true ->
  @triple E unit ok (Printf format args) (fun _ => True).
Proof. apply triple_emit. Qed.

Lemma triple_Println (line : string) :
  ok (Print (line ++ NL)) = true ->
  @triple E unit ok (Println line) (fun _ => True).
Proof. apply triple_emit. Qed.

End Logic.

(** ** The helpers of [main.go], under any policy that allows printing *)

Section Helpers.

Context {E : Type}.
Variable ops : Ops E.
Variable cli : Pkg.
Variable ok : event -> bool.
Hypothesis ok_Print : forall text, ok (Print text) = true.

Lemma triple_printHelpAndExit (Q : unit -> Prop) :
  triple ok (printHelpAndExit ops cli) Q.
Proof.
  unfold printHelpAndExit.
  apply triple_seq; [apply triple_emit, ok_Print |].
  apply triple_seq; [apply triple_Printf, ok_Print |].
  apply triple_seq; [apply triple_emit, ok_Print |].
  apply triple_exit.
Qed.

Lemma triple_ExitIfError (e : option error) :
  triple ok (ExitIfError ops e) (fun _ => e = None).
Proof.
  destruct e as [err |]; simpl.
  - apply triple_seq; [apply triple_Printf, ok_Print | apply triple_exit].
  - apply triple_ret. reflexivity.
Qed.

Lemma triple_getOrExitIfNoGame (games : list Game) (keyword : string) :
  triple ok (getOrExitIfNoGame ops cli games keyword) (fun g => In g games).
Proof.
  intros s Hs. destruct games as [| g0 rest].
  - rewrite getOrExitIfNoGame_nil. simpl. split; [| discriminate].
    unfold allowed in *. simpl. rewrite forallb_app, Hs. simpl.
    unfold not_found_message. rewrite ok_Print. reflexivity.
  - rewrite getOrExitIfNoGame_cons.
    destruct (getOrExitIfNoGame_loop ops (g0 :: rest) keyword) as [g |] eqn:Hl;
      cbn [fst snd]; (split; [exact Hs |]); intros a [= <-].
    + apply loop_first in Hl. destruct Hl as (pre & post & Heq & _).
      rewrite Heq. apply in_or_app. right. left. reflexivity.
    + left. reflexivity.
Qed.

Lemma triple_printGames (games : list Game) :
  @triple E unit ok (printGames cli games) (fun _ => True).
Proof.
  unfold printGames. apply triple_forEach. intros game.
  apply triple_Printf, ok_Print.
Qed.

Lemma triple_help_unless_keyword (keyword : option string) :
  triple ok (when (is_nil keyword) (printHelpAndExit ops cli))
         (fun _ => is_nil keyword = false).
Proof. apply triple_when_exits, triple_printHelpAndExit. Qed.

End Helpers.

(** Every call of [RunGame] made by the [run] command is for a game whose
    [Installed] flag is set. *)
Lemma run_triple {E : Type} (ops : Ops E) (cli : Pkg)
      (m : Manager) (args : list string) :
  triple run_ok (run ops cli m args) (fun _ => True).
Proof.
  assert (Hp : forall text, run_ok (Print text) = true) by reflexivity.
  unfold run.
  eapply triple_bind; [apply triple_call; reflexivity |].
  intros [games e] _.
  eapply triple_bind; [apply triple_ExitIfError, Hp |]. intros _ _.
  eapply triple_bind; [apply triple_help_unless_keyword, Hp |]. intros _ _.
  eapply triple_bind; [apply triple_deref |]. intros kw _.
  eapply triple_bind; [apply triple_getOrExitIfNoGame, Hp |]. intros game _.
  eapply triple_bind.
  { apply triple_when_exits.
    apply triple_seq; [apply triple_Printf, Hp |].
    apply triple_seq; [apply triple_Printf, Hp | apply triple_exit]. }
  intros [] Hinst. cbv beta in Hinst. apply negb_false_iff in Hinst.
  eapply triple_bind; [apply triple_call; exact Hinst |].
  intros [game' e'] _.
  eapply triple_bind; [apply triple_ExitIfError, Hp |]. intros _ _.
  apply triple_Printf, Hp.
Qed.

(** C7.  The [run] command calls [RunGame] only for a game whose
    [Installed] flag is set: if every earlier call was for an installed
    game, so is every call once [run] is over.  When the game resolved
    from the keyword is not installed, [run] prints the "isn't installed"
    line and the hint to install it, and exits with status 1; nothing is
    launched and the host is as loading the games left it.  When the game
    is installed, [run] goes on with the call of [RunGame] for it. *)
Theorem run_requires_installed
        {E : Type} (ops : Ops E) (cli : Pkg)
        (m : Manager) (args : list string) (s : St E) :
  (allowed run_ok s -> allowed run_ok (snd (run ops cli m args s)))
  /\ (forall games w1 kw g,
         GetSortedGames ops m (world s) = ((games, None), w1) ->
         GetCommandArg cli args = Some kw ->
         let s1 := mkSt (trace s ++ [CallGetSortedGames]) w1 in
         getOrExitIfNoGame ops cli
           (FilterGames ops games (Some kw) None None false) kw s1
         = (Done g, s1) ->
         (Installed g = false ->
          run ops cli m args s
          = (Exit 1, mkSt (trace s1 ++ not_installed_messages cli g) w1))
         /\ (Installed g = true ->
             run ops cli m args s
             = (r <- call (CallRunGame g) (RunGame ops m g) ;;
                ExitIfError ops (snd r) ;;
                Printf ("Running %s game..." ++ NL)
                       [FmtName cli (Title (fst r))]) s1)).
Proof.
  split.
  - intros Hs. apply (run_triple ops cli m args s Hs).
  - intros games w1 kw g Hgames Hkw s1 Hres.
    split; intros Hinst;
      unfold run; unfold bind at 1, call at 1; rewrite Hgames;
      cbn [ExitIfError]; unfold bind at 1, ret at 1;
      rewrite Hkw; cbn [is_nil when]; unfold bind at 1, ret at 1;
      unfold bind at 1, deref at 1, ret at 1;
      unfold bind at 1; fold s1; rewrite Hres, Hinst; cbn [negb when].
    + unfold bind, Printf, emit, os_Exit. cbn [trace world].
      unfold not_installed_messages.
      rewrite <- app_assoc. reflexivity.
    + unfold bind at 1, ret at 1. unfold bind.
      destruct (call (CallRunGame g) (RunGame ops m g) s1) as [[[g' e] | |] s2];
        reflexivity.
Qed.

Lemma run_requires_installed_witness :
  allowed run_ok
    (snd (run Sample.sampleOps Sample.samplePkg Sample.sampleManager
              ["run"; "cat"] (mkSt [] Sample.fresh)))
  /\ run Sample.sampleOps Sample.samplePkg Sample.sampleManager
         ["run"; "cat"] (mkSt [] Sample.fresh)
     = (Exit 1,
        mkSt ([CallGetSortedGames]
                ++ not_installed_messages Sample.samplePkg Sample.cat)
             Sample.fresh)
  /\ run Sample.sampleOps Sample.samplePkg Sample.sampleManager
         ["run"; "galaxy"] (mkSt [] Sample.fresh)
     = (Done tt,
        mkSt [CallGetSortedGames; CallRunGame Sample.galaxy;
              Print ("Running Galaxy Quest game..." ++ NL)]
             Sample.fresh).
Proof.
  split; [| split].
  - apply (proj1 (run_requires_installed Sample.sampleOps Sample.samplePkg
                    Sample.sampleManager ["run"; "cat"]
                    (mkSt [] Sample.fresh))).
    reflexivity.
  - apply (proj1 (proj2 (run_requires_installed Sample.sampleOps
                    Sample.samplePkg Sample.sampleManager ["run"; "cat"]
                    (mkSt [] Sample.fresh))
                    Sample.catalog Sample.fresh "cat" Sample.cat
                    eq_refl eq_refl eq_refl)).
    reflexivity.
  - etransitivity.
    + apply (proj2 (proj2 (run_requires_installed Sample.sampleOps
                    Sample.samplePkg Sample.sampleManager ["run"; "galaxy"]
                    (mkSt [] Sample.fresh))
                    Sample.catalog Sample.fresh "galaxy" Sample.galaxy
                    eq_refl eq_refl eq_refl)).
      reflexivity.
    + reflexivity.
Defined.

(** ** The first [switch] of [main] *)

Section Dispatch.

Context {E : Type}.
Variable ops : Ops E.
Variable cli : Pkg.

Let noup_Print : forall text, no_update (Print text) = true :=
  fun _ => eq_refl.

Lemma init_no_update :
  triple no_update (initManagerAndConfigurator ops) (fun _ => True).
Proof.
  unfold initManagerAndConfigurator.
  eapply triple_bind; [apply triple_read |]. intros [executablePath e] _.
  eapply triple_bind; [apply triple_ExitIfError, noup_Print |]. intros _ _.
  destruct (BinAbsDir ops executablePath) as [currentDir e'].
  eapply triple_bind; [apply triple_ExitIfError, noup_Print |]. intros _ _.
  eapply triple_bind; [apply triple_call; reflexivity |].
  intros [[c config] e''] _.
  eapply triple_bind; [apply triple_ExitIfError, noup_Print |]. intros _ _.
  apply triple_ret. exact I.
Qed.

Lemma list_no_update (m : Manager) (args : list string) :
  triple no_update (list_ ops cli m args) (fun _ => True).
Proof.
  unfold list_.
  eapply triple_bind; [apply triple_call; reflexivity |]. intros [games e] _.
  eapply triple_bind; [apply triple_ExitIfError, noup_Print |]. intros _ _.
  eapply triple_bind; [apply triple_slice |]. intros rest _.
  destruct (getGamesFilterValues cli rest) as [[repository lang] onlyInstalled].
  apply triple_printGames, noup_Print.
Qed.

Lemma search_no_update (m : Manager) (args : list string) :
  triple no_update (search ops cli m args) (fun _ => True).
Proof.
  unfold search.
  eapply triple_bind; [apply triple_call; reflexivity |]. intros [games e] _.
  eapply triple_bind; [apply triple_ExitIfError, noup_Print |]. intros _ _.
  eapply triple_bind; [apply triple_help_unless_keyword, noup_Print |].
  intros _ _.
  eapply triple_bind; [apply triple_slice |]. intros rest _.
  destruct (getGamesFilterValues cli rest) as [[repository lang] onlyInstalled].
  apply triple_printGames, noup_Print.
Qed.

(** For the commands [list] and [search], [main] never calls
    [UpdateRepositories], whatever [HasDownloadedRepositories] says. *)
Lemma main_list_search_no_update (os_Args : list string) :
  command_of ops cli os_Args = "list"
  \/ command_of ops cli os_Args = "search" ->
  triple no_update (main ops cli os_Args) (fun _ => True).
Proof.
  intros Hcmd. unfold main.
  eapply triple_bind; [apply init_no_update |]. intros [m c] _.
  eapply triple_bind; [apply triple_read |]. intros has _.
  eapply triple_bind; [apply triple_slice |]. intros args ->.
  change (ToLower ops (GetCommand cli (skipn 1 os_Args)))
    with (command_of ops cli os_Args).
  destruct Hcmd as [-> | ->]; cbn [String.eqb Ascii.eqb Bool.eqb].
  - eapply triple_bind; [apply triple_ret; exact I |]. intros m' _.
    unfold runCommand. cbn [String.eqb Ascii.eqb Bool.eqb].
    apply list_no_update.
  - eapply triple_bind; [apply triple_ret; exact I |]. intros m' _.
    unfold runCommand. cbn [String.eqb Ascii.eqb Bool.eqb].
    apply search_no_update.
Qed.

(** For the command [langs], [main] updates the repositories first
    exactly when no repository data has been downloaded. *)
Lemma main_langs (os_Args : list string) (s : St E) :
  command_of ops cli os_Args = "langs" ->
  main ops cli os_Args s
  = (r <- initManagerAndConfigurator ops ;;
     has <- read (HasDownloadedRepositories ops (fst r)) ;;
     args <- slice 1 os_Args ;;
     when (negb has) (update ops (fst r)) ;;
     langs ops cli (fst r)) s.
Proof.
  intros Hcmd. unfold main, bind.
  destruct (initManagerAndConfigurator ops s) as [[[m c] | code |] s1];
    try reflexivity.
  cbn [fst]. destruct (read (HasDownloadedRepositories ops m) s1)
    as [[has | code |] s2]; try reflexivity.
  unfold slice, slice_from.
  destruct (1 <=? length os_Args)%nat; [| reflexivity].
  unfold ret.
  change (ToLower ops (GetCommand cli (skipn 1 os_Args)))
    with (command_of ops cli os_Args).
  rewrite Hcmd. cbn [String.eqb Ascii.eqb Bool.eqb].
  destruct (when (negb has) (update ops m) s2) as [[[] | code |] s3];
    try reflexivity.
Qed.

End Dispatch.

(** C1 (the code departs from it).  On a host without downloaded
    repository data, [list] and [search] go straight to loading the games:
    [UpdateRepositories] is not called.  Only [langs] updates first. *)
Theorem main_list_search_skip_update :
  let s0 := mkSt [] Sample.fresh in
  HasDownloadedRepositories Sample.sampleOps Sample.sampleManager Sample.fresh
  = false
  /\ calls_of (trace (snd (main Sample.sampleOps Sample.samplePkg
                                ["insteadman"; "list"] s0)))
     = [CallGetConfig; CallGetSortedGamesByDateDesc]
  /\ calls_of (trace (snd (main Sample.sampleOps Sample.samplePkg
                                ["insteadman"; "search"; "cat"] s0)))
     = [CallGetConfig; CallGetSortedGames]
  /\ calls_of (trace (snd (main Sample.sampleOps Sample.samplePkg
                                ["insteadman"; "langs"] s0)))
     = [CallGetConfig; CallUpdateRepositories; CallGetSortedGames].
Proof. vm_compute. repeat split. Qed.

End CliFacts.

(* ================================================================= *)
(** * Properties of the Fyne front end *)

Module FyneFacts.
Import Go Manager Prog Fyne Spec.
Open Scope prog_scope.

Section Screens.

Context {E : Type}.
Variable ops : Ops E.
Variable float64_ge : Z -> Z -> bool.
Variable onRefresh : option (E -> E).

(** [UpdateInfo] always returns; afterwards the screen points to the
    game it was given, shows the buttons that fit its [Installed] flag
    and still has its manager and configurator. *)
Lemma UpdateInfo_spec (g : Game) (s : St GameInfoScreen E) :
  exists s',
    UpdateInfo ops g s = (Done tt, s')
    /\ game (screen s') = Some g
    /\ buttons_fit (Installed g) (screen s')
    /\ m (screen s') = m (screen s)
    /\ c (screen s') = c (screen s).
Proof.
  unfold UpdateInfo, bind, modify, when, call, read, emit, get, ret, buttons_fit.
  cbn [screen trace world].
  destruct (String.eqb (Descurl g) ""); cbn [negb screen trace world];
    destruct (Installed g); cbn [negb screen trace world];
    match goal with
    | |- context [GetGameImage ops ?mm g ?w] =>
        destruct (GetGameImage ops mm g w) as [[fileName e] w1]
    end;
    destruct e as [err |]; cbn [is_nil screen trace world];
    try (eexists; repeat split; reflexivity);
    match goal with
    | |- context [os_ReadFile ops ?pp ?w] =>
        destruct (os_ReadFile ops pp w) as [b [err |]]
    end;
    eexists; repeat split; reflexivity.
Qed.

Lemma call_onRefresh_spec (s : St GameInfoScreen E) :
  exists s',
    call_onRefresh onRefresh s = (Done tt, s') /\ screen s' = screen s.
Proof.
  unfold call_onRefresh, call, ret. destruct onRefresh as [f |];
    eexists; split; reflexivity.
Qed.

Lemma progress_spec (total : Z) (sizes : list Z) (s : St GameInfoScreen E) :
  forEach sizes (fun size =>
    emit (ProgressSetValue (Ratio size total)) ;;
    when (float64_ge size total)
      (emit (ProgressSetValue Full) ;; emit ProgressHide)) s
  = (Done tt,
     mkSt (screen s)
          (trace s ++ progress_events float64_ge total sizes) (world s)).
Proof.
  revert s. induction sizes as [| size rest IH]; intros s.
  - simpl. unfold ret. rewrite app_nil_r. destruct s; reflexivity.
  - unfold progress_events in *. cbn [forEach flat_map]. unfold bind at 1.
    unfold bind at 1, emit at 1, when, bind at 1, emit, ret.
    destruct (float64_ge size total); cbn [screen trace world];
      rewrite IH; cbn [screen trace world];
      rewrite <- ?app_assoc; reflexivity.
Qed.

End Screens.

(** C6.  In the install handler, when [InstallGame] returns an error the
    error is shown in a dialog and the handler writes nothing to the game:
    the record, its [Installed] flag included, is as [InstallGame] left
    it.  When [InstallGame] returns no error the handler sets [Installed]
    to true, and the screen then offers [Run] and [Delete]. *)
Theorem installButton_sets_flag_on_success
        {E : Type} (ops : Ops E) (float64_ge : Z -> Z -> bool)
        (onRefresh : option (E -> E)) (s : St GameInfoScreen E)
        (g g' : Game) (sizes : list Z) (err : option error) (w' : E) :
  game (screen s) = Some g ->
  InstallGame ops (m (screen s)) g (world s) = ((sizes, g', err), w') ->
  exists s',
    installButton_OnTapped ops float64_ge onRefresh s = (Done tt, s')
    /\ match err with
       | Some e =>
           screen s' = set_game (Some g') (screen s)
           /\ world s' = w'
           /\ trace s'
              = (trace s
                 ++ [ProgressShow (Title g) "Installing..."; CallInstallGame g]
                 ++ progress_events float64_ge (Size g) sizes
                 ++ [ProgressHide; ShowError e])%list
       | None =>
           game (screen s') = Some (set_Installed true g')
           /\ buttons_fit true (screen s')
       end.
Proof.
  intros Hgame Hinstall.
  unfold installButton_OnTapped.
  unfold bind at 1, get at 1. rewrite Hgame.
  unfold bind at 1, deref at 1, ret at 1.
  unfold bind at 1, emit at 1.
  unfold bind at 1, call at 1. cbn [screen trace world]. rewrite Hinstall.
  unfold bind at 1, modify at 1. cbn [screen trace world].
  unfold bind at 1. rewrite progress_spec. cbn [screen trace world].
  destruct err as [e |].
  - unfold bind, emit. cbn [screen trace world]. eexists. split; [reflexivity |].
    cbn [screen trace world]. repeat split.
    rewrite <- !app_assoc. reflexivity.
  - unfold bind at 1, get at 1. cbn [screen game set_game].
    unfold bind at 1, deref at 1, ret at 1.
    unfold bind at 1, modify at 1. cbn [screen trace world game set_game].
    unfold bind at 1, get at 1. cbn [screen game set_game].
    unfold bind at 1, deref at 1, ret at 1.
    unfold bind at 1.
    match goal with
    | |- context [UpdateInfo ops ?gg ?s1] =>
        destruct (UpdateInfo_spec ops gg s1) as (s2 & -> & Hg2 & Hb2 & _)
    end.
    destruct (call_onRefresh_spec onRefresh s2) as (s3 & -> & Hscr).
    exists s3. split; [reflexivity |]. rewrite Hscr. split; assumption.
Qed.

Lemma installButton_sets_flag_on_success_witness :
  (exists s',
      installButton_OnTapped Sample.sampleOps Sample.float64_ge None
        (mkSt (Sample.screenOf Sample.cat) [] Sample.fresh)
      = (Done tt, s')
      /\ game (screen s') = Some (set_Installed true Sample.cat)
      /\ buttons_fit true (screen s'))
  /\ (exists s',
         installButton_OnTapped Sample.sampleOps Sample.float64_ge None
           (mkSt (Sample.screenOf Sample.cat) [] Sample.readOnlyHost)
         = (Done tt, s')
         /\ screen s' = Sample.screenOf Sample.cat
         /\ world s' = Sample.readOnlyHost
         /\ trace s'
            = [ProgressShow "Returning the Quantum Cat" "Installing...";
               CallInstallGame Sample.cat;
               ProgressHide; ShowError (ErrPermission "cat")]).
Proof.
  split.
  - exact (installButton_sets_flag_on_success Sample.sampleOps
             Sample.float64_ge None
             (mkSt (Sample.screenOf Sample.cat) [] Sample.fresh)
             Sample.cat Sample.cat [2000%Z] None Sample.fresh
             eq_refl eq_refl).
  - exact (installButton_sets_flag_on_success Sample.sampleOps
             Sample.float64_ge None
             (mkSt (Sample.screenOf Sample.cat) [] Sample.readOnlyHost)
             Sample.cat Sample.cat [] (Some (ErrPermission "cat"))
             Sample.readOnlyHost eq_refl eq_refl).
Defined.

(** The delete handler clears the [Installed] flag whatever [RemoveGame]
    returns: its error is dropped. *)
Lemma deleteButton_always_clears
      {E : Type} (ops : Ops E) (onRefresh : option (E -> E))
      (s : St GameInfoScreen E)
      (g g' : Game) (err : option error) (w' : E) :
  game (screen s) = Some g ->
  RemoveGame ops (m (screen s)) g (world s) = ((g', err), w') ->
  exists s',
    deleteButton_OnTapped ops onRefresh s = (Done tt, s')
    /\ game (screen s') = Some (set_Installed false g')
    /\ buttons_fit false (screen s').
Proof.
  intros Hgame Hremove.
  unfold deleteButton_OnTapped.
  unfold bind at 1, get at 1. rewrite Hgame.
  unfold bind at 1, deref at 1, ret at 1.
  unfold bind at 1, call at 1. rewrite Hremove.
  unfold bind at 1, modify at 1. cbn [screen trace world].
  unfold bind at 1, get at 1. cbn [screen game set_game].
  unfold bind at 1, deref at 1, ret at 1.
  unfold bind at 1, modify at 1. cbn [screen trace world game set_game].
  unfold bind at 1, get at 1. cbn [screen game set_game].
  unfold bind at 1, deref at 1, ret at 1.
  unfold bind at 1.
  match goal with
  | |- context [UpdateInfo ops ?gg ?s1] =>
      destruct (UpdateInfo_spec ops gg s1) as (s2 & -> & Hg2 & Hb2 & _)
  end.
  destruct (call_onRefresh_spec onRefresh s2) as (s3 & -> & Hscr).
  exists s3. split; [reflexivity |]. rewrite Hscr. split; assumption.
Qed.

(** C4 (the code departs from it).  On a host that refuses to delete,
    [RemoveGame] returns an error for the installed game [galaxy] and
    leaves the record alone; the delete handler nevertheless ends with the
    [Installed] flag of the game cleared and the [Install] button on
    show. *)
Theorem deleteButton_clears_flag_on_error :
  let s0 := mkSt (Sample.screenOf Sample.galaxy) [] Sample.readOnlyHost in
  let r := deleteButton_OnTapped Sample.sampleOps None s0 in
  Installed Sample.galaxy = true
  /\ RemoveGame Sample.sampleOps Sample.sampleManager Sample.galaxy
                Sample.readOnlyHost
     = ((Sample.galaxy, Some (ErrPermission "galaxy")), Sample.readOnlyHost)
  /\ fst r = Done tt
  /\ option_map Installed (game (screen (snd r))) = Some false
  /\ Hidden (installButton (screen (snd r))) = false
  /\ Hidden (runButton (screen (snd r))) = true.
Proof. vm_compute. repeat split. Qed.

Lemma found_is_not_failed (version : string) :
  String.eqb ("INSTEAD " ++ version ++ " has found!")
             "INSTEAD built-in check failed!" = false
  /\ String.eqb ("INSTEAD " ++ version ++ " has found!")
                "INSTEAD check failed!" = false.
Proof.
  split; simpl; apply String.eqb_neq; intros H;
    repeat (destruct version as [| ? version];
            [discriminate | simpl in H; injection H as _ H]);
    destruct version; discriminate.
Qed.

(** C8.  The check handler shows, in the path information label, a text
    chosen as follows.  When [Check] of the configured interpreter command
    returns an error: "INSTEAD built-in check failed!" if the manager says
    the command is the built-in one, and "INSTEAD check failed!" if not.
    When [Check] returns no error: "INSTEAD <version> has found!" with the
    version returned.  So the built-in text is shown exactly when the
    check fails and the command is the built-in one, and the other failure
    text exactly when the check fails and it is not. *)
Theorem checkButton_message
        {E : Type} (ops : Ops E) (s : St SettingsScreen E) :
  let mgr := ss_Manager (screen s) in
  let r := InterpreterFinder.Check
             (platform ops) (host ops (world s)) (Finder mgr)
             (Manager_InterpreterCommand ops mgr (world s)) in
  let builtin := IsBuiltinInterpreterCommand ops mgr (world s) in
  let txt :=
    match snd r with
    | Some _ =>
        if builtin
        then "INSTEAD built-in check failed!"
        else "INSTEAD check failed!"
    | None => "INSTEAD " ++ fst r ++ " has found!"
    end in
  checkButton_OnTapped ops s
  = (Done tt,
     mkSt (set_pathInfo (fun _ => mkLabel txt false) (screen s))
          (trace s) (world s))
  /\ String.eqb txt "INSTEAD built-in check failed!"
     = not_nil (snd r) && builtin
  /\ String.eqb txt "INSTEAD check failed!"
     = not_nil (snd r) && negb builtin.
Proof.
  intros mgr r builtin txt. split.
  - unfold checkButton_OnTapped.
    unfold bind at 1, get at 1. unfold bind at 1, read at 1.
    unfold bind at 1, read at 1. fold mgr. fold r.
    subst txt. destruct r as [version checkErr]. cbn [fst snd].
    destruct checkErr as [e |]; cbn [not_nil is_nil negb].
    + unfold bind at 1. unfold bind at 1, read at 1. fold mgr. fold builtin.
      destruct builtin; reflexivity.
    + reflexivity.
  - subst txt. destruct (snd r) as [e |]; cbn [not_nil is_nil negb andb].
    + destruct builtin; split; reflexivity.
    + destruct (found_is_not_failed (fst r)) as [H1 H2].
      rewrite H1, H2. split; reflexivity.
Qed.

Example checkButton_sample :
  checkButton_OnTapped Sample.sampleOps
    (mkSt (makeMainTab_widgets Sample.sampleManager) [] Sample.fresh)
  = (Done tt,
     mkSt (mkSettingsScreen Sample.sampleManager
             (mkLabel "/usr/local/bin/instead" false)
             (mkLabel "INSTEAD 3.3.2 has found!" false))
          [] Sample.fresh).
Proof. reflexivity. Qed.

End FyneFacts.

(* ================================================================= *)
(** * Further properties of the command-line front end *)

Module CliMore.
Import Go Manager Prog Cli Spec.
Open Scope prog_scope.

Lemma forEach_emit {E A : Type} (line : A -> event) (l : list A) (s : St E) :
  forEach l (fun x => emit (line x)) s
  = (Done tt, mkSt (trace s ++ map line l) (world s)).
Proof.
  revert s. induction l as [| x rest IH]; intros s.
  - simpl. unfold ret. rewrite app_nil_r. destruct s; reflexivity.
  - cbn [forEach map]. unfold bind, emit at 1. rewrite IH.
    cbn [trace world]. rewrite <- app_assoc. reflexivity.
Qed.

Lemma printGames_lines {E : Type} (cli : Pkg) (games : list Game) (s : St E) :
  printGames cli games s
  = (Done tt,
     mkSt (trace s ++ map (fun g => Print (game_line cli g)) games) (world s)).
Proof. unfold printGames, Printf. apply (forEach_emit (fun g => Print _)). Qed.

Lemma printHelpAndExit_run {E : Type} (ops : Ops E) (cli : Pkg) (s : St E) :
  printHelpAndExit ops cli s
  = (Exit 1, mkSt (trace s ++ help_events ops cli) (world s)).
Proof.
  unfold printHelpAndExit, bind, Printf, emit, os_Exit, help_events.
  cbn [trace world]. rewrite <- !app_assoc. reflexivity.
Qed.

Lemma loop_keyword_case {E : Type} (ops : Ops E)
      (games : list Game) (kw1 kw2 : string) :
  ToLower ops kw1 = ToLower ops kw2 ->
  getOrExitIfNoGame_loop ops games kw1 = getOrExitIfNoGame_loop ops games kw2.
Proof.
  intros H. induction games as [| g rest IH]; [reflexivity |].
  cbn [getOrExitIfNoGame_loop]. rewrite H, IH. reflexivity.
Qed.

(** X1.  Keyword resolution never invents a game and never panics: it
    either returns one of the candidates, printing nothing, or, only for an
    empty candidate sequence, exits with status 1. *)
Theorem getOrExitIfNoGame_returns_candidate
        {E : Type} (ops : Ops E) (cli : Pkg)
        (games : list Game) (keyword : string) (s : St E) :
  match getOrExitIfNoGame ops cli games keyword s with
  | (Done g, s') => In g games /\ s' = s
  | (Exit code, _) => games = [] /\ code = 1%Z
  | (Panic, _) => False
  end.
Proof.
  destruct games as [| g0 rest].
  - rewrite CliFacts.getOrExitIfNoGame_nil. split; reflexivity.
  - rewrite CliFacts.getOrExitIfNoGame_cons. split; [| reflexivity].
    destruct (getOrExitIfNoGame_loop ops (g0 :: rest) keyword) as [g |] eqn:Hl.
    + apply CliFacts.loop_first in Hl. destruct Hl as (pre & post & Heq & _).
      rewrite Heq. apply in_or_app. right. left. reflexivity.
    + left. reflexivity.
Qed.

(** X2.  Resolution looks at the keyword only through its lower-case form:
    two keywords with the same lower-case form resolve, among the same
    candidates, to the same game. *)
Theorem getOrExitIfNoGame_keyword_case
        {E : Type} (ops : Ops E) (cli : Pkg)
        (games : list Game) (kw1 kw2 : string) (s : St E) :
  ToLower ops kw1 = ToLower ops kw2 ->
  games <> [] ->
  getOrExitIfNoGame ops cli games kw1 s = getOrExitIfNoGame ops cli games kw2 s.
Proof.
  intros H Hne. destruct games as [| g0 rest]; [contradiction |].
  rewrite !CliFacts.getOrExitIfNoGame_cons, (loop_keyword_case ops _ kw1 kw2 H).
  reflexivity.
Qed.

Lemma getOrExitIfNoGame_keyword_case_witness :
  getOrExitIfNoGame Sample.sampleOps Sample.samplePkg Sample.catalog "CaT"
                    (mkSt [] Sample.fresh)
  = getOrExitIfNoGame Sample.sampleOps Sample.samplePkg Sample.catalog "cAt"
                      (mkSt [] Sample.fresh).
Proof.
  apply (getOrExitIfNoGame_keyword_case Sample.sampleOps Sample.samplePkg
           Sample.catalog "CaT" "cAt" (mkSt [] Sample.fresh)).
  - reflexivity.
  - discriminate.
Defined.

(** X3.  [update] always runs to its end: it calls [UpdateRepositories]
    once, prints the "There are errors:" line exactly when the errors
    returned are not nil, prints every error in order on a line of its own,
    and finishes with "Repositories have updated." and a normal return,
    whatever the errors were. *)
Theorem update_always_completes
        {E : Type} (ops : Ops E) (m : Manager) (s : St E) :
  update ops m s
  = (Done tt,
     mkSt (trace s ++ update_events ops (fst (UpdateRepositories ops m (world s))))
          (snd (UpdateRepositories ops m (world s)))).
Proof.
  unfold update, update_events, Println.
  unfold bind at 1, emit at 1. unfold bind at 1, call at 1. cbn [trace world].
  destruct (UpdateRepositories ops m (world s)) as [errors w']. cbn [fst snd].
  unfold bind at 1.
  replace (when (not_nil errors) (emit (Print ("There are errors:" ++ NL)))
             {| trace := (trace s ++ [Print ("Updating repositories..." ++ NL)])
                         ++ [CallUpdateRepositories];
                world := w' |})
    with (@Done unit tt,
          mkSt (trace s ++ [Print ("Updating repositories..." ++ NL);
                            CallUpdateRepositories]
                  ++ (if not_nil errors
                      then [Print ("There are errors:" ++ NL)] else []))
               w').
  2:{ destruct (not_nil errors); unfold when, emit, ret; cbn [trace world];
      rewrite <- ?app_assoc; cbn [app]; rewrite ?app_nil_r; reflexivity. }
  unfold bind at 1.
  change (fun e : error => Printf ("%s" ++ NL) [Error ops e])
    with (fun e : error => @emit E (Print (Error ops e ++ NL))).
  rewrite forEach_emit. unfold emit. cbn [trace world].
  rewrite <- !app_assoc. reflexivity.
Qed.

(** X4.  [list] prints one line per game, in the order received.  Without
    a repository, language or installed-only option these are all the games
    of [GetSortedGamesByDateDesc]; with one, they are what [FilterGames]
    keeps of them, no keyword being given to it. *)
Theorem list_prints_each_game
        {E : Type} (ops : Ops E) (cli : Pkg) (m : Manager)
        (cmd : string) (rest : list string) (s : St E)
        (games : list Game) (w1 : E) :
  GetSortedGamesByDateDesc ops m (world s) = ((games, None), w1) ->
  let shown :=
    let '(repository, lang, onlyInstalled) := getGamesFilterValues cli rest in
    if not_nil repository || not_nil lang || onlyInstalled
    then FilterGames ops games None repository lang onlyInstalled
    else games in
  list_ ops cli m (cmd :: rest) s
  = (Done tt,
     mkSt (trace s ++ CallGetSortedGamesByDateDesc
             :: map (fun g => Print (game_line cli g)) shown) w1).
Proof.
  intros Hgames shown. subst shown.
  unfold list_. unfold bind at 1, call at 1. rewrite Hgames.
  cbn [ExitIfError]. unfold bind at 1, ret at 1.
  unfold bind at 1, slice, slice_from. cbn [length Nat.leb skipn ret].
  destruct (getGamesFilterValues cli rest) as [[repository lang] onlyInstalled].
  rewrite printGames_lines. cbn [trace world].
  rewrite <- app_assoc. reflexivity.
Qed.

Lemma list_prints_each_game_witness :
  list_ Sample.sampleOps Sample.samplePkg Sample.sampleManager
        ("list" :: []) (mkSt [] Sample.fresh)
  = (Done tt,
     mkSt ([] ++ CallGetSortedGamesByDateDesc
              :: map (fun g => Print (game_line Sample.samplePkg g))
                     Sample.catalog)
          Sample.fresh).
Proof.
  exact (list_prints_each_game Sample.sampleOps Sample.samplePkg
           Sample.sampleManager "list" [] (mkSt [] Sample.fresh)
           Sample.catalog Sample.fresh eq_refl).
Defined.

(** X5.  Without a keyword argument, [search], [install], [show], [run] and
    [remove] all do the same: once the games are loaded they print the help
    and exit with status 1.  No game is installed, launched or removed. *)
Theorem commands_without_keyword
        {E : Type} (ops : Ops E) (cli : Pkg) (m : Manager)
        (args : list string) (s : St E) (games : list Game) (w1 : E) :
  GetSortedGames ops m (world s) = ((games, None), w1) ->
  GetCommandArg cli args = None ->
  let stop : outcome unit * St E :=
    (Exit 1, mkSt (trace s ++ CallGetSortedGames :: help_events ops cli) w1) in
  search ops cli m args s = stop
  /\ install ops cli m args s = stop
  /\ show ops cli m args s = stop
  /\ run ops cli m args s = stop
  /\ remove ops cli m args s = stop.
Proof.
  intros Hgames Hkw stop. subst stop.
  repeat split;
    [unfold search | unfold install | unfold show | unfold run | unfold remove];
    unfold bind at 1, call at 1; rewrite Hgames;
    cbn [ExitIfError]; unfold bind at 1, ret at 1;
    rewrite Hkw; cbn [is_nil when]; unfold bind at 1;
    rewrite printHelpAndExit_run; cbn [trace world];
    rewrite <- app_assoc; reflexivity.
Qed.

Lemma commands_without_keyword_witness :
  run Sample.sampleOps Sample.samplePkg Sample.sampleManager ["run"]
      (mkSt [] Sample.fresh)
  = (Exit 1,
     mkSt ([] ++ CallGetSortedGames
              :: help_events Sample.sampleOps Sample.samplePkg) Sample.fresh).
Proof.
  exact (proj1 (proj2 (proj2 (proj2
           (commands_without_keyword Sample.sampleOps Sample.samplePkg
              Sample.sampleManager ["run"] (mkSt [] Sample.fresh)
              Sample.catalog Sample.fresh eq_refl eq_refl))))).
Defined.

Lemma runCommand_unknown {E : Type} (ops : Ops E) (cli : Pkg)
      (command : string) (args : list string) (m : Manager) (c : Configurator) :
  existsb (String.eqb command) known_commands = false ->
  runCommand ops cli command args m c = printHelpAndExit ops cli.
Proof.
  intros H. unfold known_commands in H. cbn [existsb] in H.
  repeat (apply orb_false_elim in H; destruct H as [?H H]).
  unfold runCommand.
  repeat match goal with
         | Hc : String.eqb command _ = false |- _ => rewrite Hc; clear Hc
         end.
  reflexivity.
Qed.

(** X6.  For a command that is none of the twelve [runCommand] knows (the
    command is compared in lower case), [main] starts up, prints the help
    and exits with status 1: it never returns normally, and calls nothing
    of the manager but what start-up calls. *)
Theorem main_unknown_command
        {E : Type} (ops : Ops E) (cli : Pkg)
        (os_Args : list string) (s : St E) :
  existsb (String.eqb (command_of ops cli os_Args)) known_commands = false ->
  main ops cli os_Args s
  = (r <- initManagerAndConfigurator ops ;;
     _ <- read (HasDownloadedRepositories ops (fst r)) ;;
     _ <- slice 1 os_Args ;;
     printHelpAndExit ops cli) s
  /\ fst (main ops cli os_Args s) <> Done tt.
Proof.
  intros H.
  assert (Heq : main ops cli os_Args s
                = (r <- initManagerAndConfigurator ops ;;
                   _ <- read (HasDownloadedRepositories ops (fst r)) ;;
                   _ <- slice 1 os_Args ;;
                   printHelpAndExit ops cli) s).
  { unfold main, bind.
    destruct (initManagerAndConfigurator ops s) as [[[m c] | code |] s1];
      try reflexivity.
    cbn [fst]. destruct (read (HasDownloadedRepositories ops m) s1)
      as [[has | code |] s2]; try reflexivity.
    unfold slice, slice_from.
    destruct (1 <=? length os_Args)%nat; [| reflexivity].
    unfold ret.
    change (ToLower ops (GetCommand cli (skipn 1 os_Args)))
      with (command_of ops cli os_Args).
    pose proof H as H'. unfold known_commands in H'. cbn [existsb] in H'.
    repeat (apply orb_false_elim in H'; destruct H' as [?H H']).
    repeat match goal with
           | Hc : String.eqb (command_of ops cli os_Args) _ = false |- _ =>
               rewrite ?Hc; clear Hc
           end.
    cbv beta iota.
    rewrite (runCommand_unknown ops cli _ _ _ _ H).
    reflexivity. }
  split; [exact Heq |].
  rewrite Heq. unfold bind.
  destruct (initManagerAndConfigurator ops s) as [[[m c] | code |] s1];
    try discriminate.
  destruct (read (HasDownloadedRepositories ops (fst (m, c))) s1)
    as [[has | code |] s2]; try discriminate.
  destruct (slice 1 os_Args s2) as [[args | code |] s3]; discriminate.
Qed.

Lemma main_unknown_command_witness :
  fst (main Sample.sampleOps Sample.samplePkg ["insteadman"; "frobnicate"]
            (mkSt [] Sample.fresh)) <> Done tt.
Proof.
  apply (proj2 (main_unknown_command Sample.sampleOps Sample.samplePkg
                  ["insteadman"; "frobnicate"] (mkSt [] Sample.fresh)
                  eq_refl)).
Defined.

Section Policies.

Context {E : Type}.
Variable ops : Ops E.
Variable cli : Pkg.
Variable ok : event -> bool.
Hypothesis ok_Print : forall text, ok (Print text) = true.

Lemma init_triple :
  ok CallGetConfig = true ->
  triple ok (initManagerAndConfigurator ops) (fun _ => True).
Proof.
  intros Hcfg. unfold initManagerAndConfigurator.
  eapply CliFacts.triple_bind; [apply CliFacts.triple_read |].
  intros [executablePath e] _.
  eapply CliFacts.triple_bind; [apply CliFacts.triple_ExitIfError, ok_Print |].
  intros _ _.
  destruct (BinAbsDir ops executablePath) as [currentDir e'].
  eapply CliFacts.triple_bind; [apply CliFacts.triple_ExitIfError, ok_Print |].
  intros _ _.
  eapply CliFacts.triple_bind; [apply CliFacts.triple_call; exact Hcfg |].
  intros [[c config] e''] _.
  eapply CliFacts.triple_bind; [apply CliFacts.triple_ExitIfError, ok_Print |].
  intros _ _.
  apply CliFacts.triple_ret. exact I.
Qed.

Lemma run_triple_gen (m : Manager) (args : list string) :
  ok CallGetSortedGames = true ->
  (forall g, ok (CallRunGame g) = true) ->
  triple ok (run ops cli m args) (fun _ => True).
Proof.
  intros Hgames Hrun. unfold run.
  eapply CliFacts.triple_bind; [apply CliFacts.triple_call; exact Hgames |].
  intros [games e] _.
  eapply CliFacts.triple_bind; [apply CliFacts.triple_ExitIfError, ok_Print |].
  intros _ _.
  eapply CliFacts.triple_bind;
    [apply CliFacts.triple_help_unless_keyword, ok_Print |].
  intros _ _.
  eapply CliFacts.triple_bind; [apply CliFacts.triple_deref |]. intros kw _.
  eapply CliFacts.triple_bind;
    [apply CliFacts.triple_getOrExitIfNoGame, ok_Print |].
  intros game _.
  eapply CliFacts.triple_bind.
  { apply CliFacts.triple_when.
    apply CliFacts.triple_seq; [apply CliFacts.triple_Printf, ok_Print |].
    apply CliFacts.triple_seq; [apply CliFacts.triple_Printf, ok_Print |].
    apply CliFacts.triple_exit. }
  intros _ _.
  eapply CliFacts.triple_bind; [apply CliFacts.triple_call, Hrun |].
  intros [game' e'] _.
  eapply CliFacts.triple_bind; [apply CliFacts.triple_ExitIfError, ok_Print |].
  intros _ _.
  apply CliFacts.triple_Printf, ok_Print.
Qed.

End Policies.

Lemma main_run_equation {E : Type} (ops : Ops E) (cli : Pkg)
      (os_Args : list string) (s : St E) :
  command_of ops cli os_Args = "run" ->
  main ops cli os_Args s
  = (r <- initManagerAndConfigurator ops ;;
     _ <- read (HasDownloadedRepositories ops (fst r)) ;;
     args <- slice 1 os_Args ;;
     run ops cli (fst r) args) s.
Proof.
  intros Hcmd. unfold main, bind.
  destruct (initManagerAndConfigurator ops s) as [[[m c] | code |] s1];
    try reflexivity.
  cbn [fst]. destruct (read (HasDownloadedRepositories ops m) s1)
    as [[has | code |] s2]; try reflexivity.
  unfold slice, slice_from.
  destruct (1 <=? length os_Args)%nat; [| reflexivity].
  unfold ret.
  change (ToLower ops (GetCommand cli (skipn 1 os_Args)))
    with (command_of ops cli os_Args).
  rewrite Hcmd. reflexivity.
Qed.

(** X7.  For the command [run], [main] goes from start-up straight to
    [run]: it neither searches for the interpreter nor writes the
    configuration, also when no interpreter command is configured.  For the
    command [install] it first goes through [checkInterpreterAndReinit] and
    installs with the manager that returns. *)
Theorem main_run_install_dispatch
        {E : Type} (ops : Ops E) (cli : Pkg)
        (os_Args : list string) (s : St E) :
  (command_of ops cli os_Args = "run" ->
   main ops cli os_Args s
   = (r <- initManagerAndConfigurator ops ;;
      _ <- read (HasDownloadedRepositories ops (fst r)) ;;
      args <- slice 1 os_Args ;;
      run ops cli (fst r) args) s
   /\ (allowed no_detect s -> allowed no_detect (snd (main ops cli os_Args s))))
  /\ (command_of ops cli os_Args = "install" ->
      main ops cli os_Args s
      = (r <- initManagerAndConfigurator ops ;;
         _ <- read (HasDownloadedRepositories ops (fst r)) ;;
         args <- slice 1 os_Args ;;
         r' <- checkInterpreterAndReinit ops (fst r) (snd r) ;;
         install ops cli (fst r') args) s).
Proof.
  split; intros Hcmd.
  - split; [apply main_run_equation, Hcmd |].
    rewrite (main_run_equation ops cli os_Args s Hcmd).
    assert (Hp : forall text, no_detect (Print text) = true) by reflexivity.
    revert s.
    assert (Ht : triple no_detect
                   (r <- initManagerAndConfigurator ops ;;
                    _ <- read (HasDownloadedRepositories ops (fst r)) ;;
                    args <- slice 1 os_Args ;;
                    run ops cli (fst r) args) (fun _ => True)).
    { eapply CliFacts.triple_bind; [apply init_triple; [exact Hp | reflexivity] |].
      intros r _.
      eapply CliFacts.triple_bind; [apply CliFacts.triple_read |]. intros has _.
      eapply CliFacts.triple_bind; [apply CliFacts.triple_slice |]. intros args _.
      apply run_triple_gen; [exact Hp | reflexivity | reflexivity]. }
    intros s Hs. apply (Ht s Hs).
  - unfold main, bind.
    destruct (initManagerAndConfigurator ops s) as [[[m c] | code |] s1];
      try reflexivity.
    cbn [fst snd]. destruct (read (HasDownloadedRepositories ops m) s1)
      as [[has | code |] s2]; try reflexivity.
    unfold slice, slice_from.
    destruct (1 <=? length os_Args)%nat; [| reflexivity].
    unfold ret.
    change (ToLower ops (GetCommand cli (skipn 1 os_Args)))
      with (command_of ops cli os_Args).
    rewrite Hcmd. cbn [String.eqb Ascii.eqb Bool.eqb].
    destruct (checkInterpreterAndReinit ops m c s2)
      as [[[m' c'] | code |] s3]; reflexivity.
Qed.

Lemma main_run_install_dispatch_witness :
  allowed no_detect
    (snd (main Sample.sampleOps Sample.samplePkg ["insteadman"; "run"; "galaxy"]
               (mkSt [] Sample.fresh)))
  /\ main Sample.sampleOps Sample.samplePkg ["insteadman"; "install"; "cat"]
          (mkSt [] Sample.fresh)
     = (r <- initManagerAndConfigurator Sample.sampleOps ;;
        _ <- read (HasDownloadedRepositories Sample.sampleOps (fst r)) ;;
        args <- slice 1 ["insteadman"; "install"; "cat"] ;;
        r' <- checkInterpreterAndReinit Sample.sampleOps (fst r) (snd r) ;;
        install Sample.sampleOps Sample.samplePkg (fst r') args)
       (mkSt [] Sample.fresh).
Proof.
  split.
  - apply (proj2 (proj1 (main_run_install_dispatch Sample.sampleOps
                    Sample.samplePkg ["insteadman"; "run"; "galaxy"]
                    (mkSt [] Sample.fresh)) eq_refl)).
    reflexivity.
  - apply (proj2 (main_run_install_dispatch Sample.sampleOps
                    Sample.samplePkg ["insteadman"; "install"; "cat"]
                    (mkSt [] Sample.fresh)) eq_refl).
Defined.

(** X8.  [findInterpreter] writes the configuration only when [Find]
    found a path.  With no candidate present it prints that INSTEAD was not
    found and leaves manager, configuration file and host as they are.
    Otherwise the path is the first present candidate; it is printed, and
    [SaveConfig] receives the manager's configuration with that path as
    interpreter command and nothing else changed, which is also the
    configuration of the manager when the command returns. *)
Theorem findInterpreter_saves_first_present
        {E : Type} (ops : Ops E) (m : Manager) (c : Configurator) (s : St E) :
  match InterpreterFinder.Find (platform ops) (host ops (world s)) (Finder m) with
  | None =>
      findInterpreter ops m c s
      = (Done m,
         mkSt (trace s
                 ++ [CallFind;
                     Print ("INSTEAD has not found. Please add it in config.yml (interpreter_command)" ++ NL)])
              (world s))
  | Some p =>
      let cfg := set_InterpreterCommand p (Config_ m) in
      first_such (stat_succeeds (host ops (world s)))
                 (InterpreterFinder.exactFilePaths (platform ops)) p
      /\ exists out rest,
          findInterpreter ops m c s
          = (out,
             mkSt (trace s
                     ++ [CallFind;
                         Print ("INSTEAD has found: " ++ p ++ NL);
                         CallSaveConfig cfg] ++ rest)
                  (snd (SaveConfig ops c cfg (world s))))
          /\ (forall m', out = Done m' -> m' = set_Config cfg m)
  end.
Proof.
  destruct (InterpreterFinder.Find (platform ops) (host ops (world s)) (Finder m))
    as [p |] eqn:Hfind.
  - intros cfg. split.
    { apply FinderFacts.Find_loop_first. exact Hfind. }
    unfold findInterpreter.
    unfold bind at 1, emit at 1. unfold bind at 1, read at 1.
    cbn [trace world]. rewrite Hfind.
    unfold bind at 1, Printf at 1, emit at 1. cbn [trace world].
    unfold bind at 1, call at 1. cbn [trace world Config_ set_Config].
    fold cfg. destruct (SaveConfig ops c cfg (world s)) as [e w'].
    destruct e as [err |]; cbn [ExitIfError snd].
    + eexists (Exit 1), _. split; [| discriminate].
      unfold bind, Printf, emit, os_Exit. cbn [trace world].
      rewrite <- !app_assoc. reflexivity.
    + eexists (Done (set_Config cfg m)), _. split.
      * unfold bind, ret, Println, emit. cbn [trace world].
        rewrite <- !app_assoc. reflexivity.
      * intros m' [= <-]. reflexivity.
  - unfold findInterpreter.
    unfold bind at 1, emit at 1. unfold bind at 1, read at 1.
    cbn [trace world]. rewrite Hfind.
    unfold bind, Println, emit, ret. cbn [trace world].
    rewrite <- !app_assoc. reflexivity.
Qed.

Example findInterpreter_sample :
  findInterpreter Sample.sampleOps Sample.sampleManager
                  Sample.sampleConfigurator (mkSt [] Sample.fresh)
  = (Done (set_Config (set_InterpreterCommand "/usr/local/bin/instead"
                         (Config_ Sample.sampleManager)) Sample.sampleManager),
     mkSt [CallFind;
           Print ("INSTEAD has found: /usr/local/bin/instead" ++ NL);
           CallSaveConfig (mkConfig "/usr/local/bin/instead" "en" "/data");
           Print ("Path has saved" ++ NL)]
          Sample.fresh).
Proof. reflexivity. Qed.

(** X9.  [remove] and [install] do not look at the [Installed] flag: for the
    game resolved from the keyword, installed or not, [remove] announces the
    removal and calls [RemoveGame], and [install] announces the installation
    and calls [InstallGame]. *)
Theorem remove_install_ignore_installed_flag
        {E : Type} (ops : Ops E) (cli : Pkg) (m : Manager)
        (args : list string) (s : St E)
        (games : list Game) (w1 : E) (kw : string) (g : Game) :
  GetSortedGames ops m (world s) = ((games, None), w1) ->
  GetCommandArg cli args = Some kw ->
  let s1 := mkSt (trace s ++ [CallGetSortedGames]) w1 in
  getOrExitIfNoGame ops cli
    (FilterGames ops games (Some kw) None None false) kw s1 = (Done g, s1) ->
  (exists out rest w,
      remove ops cli m args s
      = (out,
         mkSt (trace s1
                 ++ [Print (Sprintf ("Removing game %s..." ++ NL)
                                    [FmtName cli (Title g)]);
                     CallRemoveGame g] ++ rest) w))
  /\ (exists out rest w,
         install ops cli m args s
         = (out,
            mkSt (trace s1
                    ++ [Print (Sprintf "Downloading and installing game %s..."
                                       [FmtName cli (Title g)]);
                        CallInstallGame g] ++ rest) w)).
Proof.
  intros Hgames Hkw s1 Hres. split.
  - unfold remove. unfold bind at 1, call at 1. rewrite Hgames.
    cbn [ExitIfError]. unfold bind at 1, ret at 1.
    rewrite Hkw. cbn [is_nil when]. unfold bind at 1, ret at 1.
    unfold bind at 1, deref at 1, ret at 1.
    unfold bind at 1. fold s1. rewrite Hres. subst s1.
    unfold bind at 1, Printf at 1, emit at 1.
    unfold bind at 1, call at 1. cbn [trace world].
    destruct (RemoveGame ops m g w1) as [[g' e] w2].
    destruct e as [err |]; cbn [ExitIfError].
    + eexists (Exit 1), _, w2.
      unfold bind, Printf, emit, os_Exit. cbn [trace world].
      rewrite <- !app_assoc. reflexivity.
    + eexists (Done tt), _, w2.
      unfold bind, ret, Printf, emit. cbn [trace world].
      rewrite <- !app_assoc. reflexivity.
  - unfold install. unfold bind at 1, call at 1. rewrite Hgames.
    cbn [ExitIfError]. unfold bind at 1, ret at 1.
    rewrite Hkw. cbn [is_nil when]. unfold bind at 1, ret at 1.
    unfold bind at 1, deref at 1, ret at 1.
    unfold bind at 1. fold s1. rewrite Hres. subst s1.
    unfold bind at 1, Printf at 1, emit at 1.
    unfold bind at 1, call at 1. cbn [trace world].
    destruct (InstallGame ops m g w1) as [[[sizes g'] e] w2].
    unfold bind at 1, Printf. rewrite forEach_emit. cbn [trace world].
    destruct e as [err |]; cbn [ExitIfError].
    + eexists (Exit 1), _, w2.
      unfold bind, Printf, emit, os_Exit. cbn [trace world].
      rewrite <- !app_assoc. reflexivity.
    + eexists (Done tt), _, w2.
      unfold bind, ret, Printf, emit. cbn [trace world].
      rewrite <- !app_assoc. reflexivity.
Qed.

Lemma remove_install_ignore_installed_flag_witness :
  (exists out rest w,
      remove Sample.sampleOps Sample.samplePkg Sample.sampleManager
             ["remove"; "cat"] (mkSt [] Sample.fresh)
      = (out,
         mkSt ([CallGetSortedGames]
                 ++ [Print ("Removing game Returning the Quantum Cat..." ++ NL);
                     CallRemoveGame Sample.cat] ++ rest) w))
  /\ Installed Sample.cat = false.
Proof.
  split; [| reflexivity].
  exact (proj1 (remove_install_ignore_installed_flag Sample.sampleOps
                  Sample.samplePkg Sample.sampleManager ["remove"; "cat"]
                  (mkSt [] Sample.fresh) Sample.catalog Sample.fresh "cat"
                  Sample.cat eq_refl eq_refl eq_refl)).
Defined.

(** ** No synchronisation outside [update] and [langs] *)

Section NoUpdate.

Context {E : Type}.
Variable ops : Ops E.
Variable cli : Pkg.

Let noup_Print : forall text, no_update (Print text) = true :=
  fun _ => eq_refl.

(** The steps every keyword command starts with. *)
Ltac keyword_prelude :=
  eapply CliFacts.triple_bind; [apply CliFacts.triple_call; reflexivity |];
  intros [? ?] _;
  eapply CliFacts.triple_bind;
    [apply CliFacts.triple_ExitIfError, noup_Print |];
  intros _ _;
  eapply CliFacts.triple_bind;
    [apply CliFacts.triple_help_unless_keyword, noup_Print |];
  intros _ _;
  eapply CliFacts.triple_bind; [apply CliFacts.triple_deref |];
  intros ? _;
  eapply CliFacts.triple_bind;
    [apply CliFacts.triple_getOrExitIfNoGame, noup_Print |];
  intros ? _.

Lemma show_no_update (m : Manager) (args : list string) :
  triple no_update (show ops cli m args) (fun _ => True).
Proof.
  unfold show. keyword_prelude.
  repeat (apply CliFacts.triple_seq;
          [first [apply CliFacts.triple_Printf, noup_Print
                 | apply CliFacts.triple_when, CliFacts.triple_Printf, noup_Print] |]).
  apply CliFacts.triple_when, CliFacts.triple_Printf, noup_Print.
Qed.

Lemma install_no_update (m : Manager) (args : list string) :
  triple no_update (install ops cli m args) (fun _ => True).
Proof.
  unfold install. keyword_prelude.
  apply CliFacts.triple_seq; [apply CliFacts.triple_Printf, noup_Print |].
  eapply CliFacts.triple_bind; [apply CliFacts.triple_call; reflexivity |].
  intros [[sizes game'] e'] _.
  apply CliFacts.triple_seq.
  { apply CliFacts.triple_forEach. intros size.
    apply CliFacts.triple_Printf, noup_Print. }
  eapply CliFacts.triple_bind; [apply CliFacts.triple_ExitIfError, noup_Print |].
  intros _ _. apply CliFacts.triple_Printf, noup_Print.
Qed.

Lemma remove_no_update (m : Manager) (args : list string) :
  triple no_update (remove ops cli m args) (fun _ => True).
Proof.
  unfold remove. keyword_prelude.
  apply CliFacts.triple_seq; [apply CliFacts.triple_Printf, noup_Print |].
  eapply CliFacts.triple_bind; [apply CliFacts.triple_call; reflexivity |].
  intros [game' e'] _.
  eapply CliFacts.triple_bind; [apply CliFacts.triple_ExitIfError, noup_Print |].
  intros _ _. apply CliFacts.triple_Printf, noup_Print.
Qed.

Lemma findInterpreter_no_update (m : Manager) (c : Configurator) :
  triple no_update (findInterpreter ops m c) (fun _ => True).
Proof.
  unfold findInterpreter.
  apply CliFacts.triple_seq; [apply CliFacts.triple_emit; reflexivity |].
  eapply CliFacts.triple_bind; [apply CliFacts.triple_read |].
  intros [p |] _.
  - apply CliFacts.triple_seq; [apply CliFacts.triple_Printf, noup_Print |].
    eapply CliFacts.triple_bind; [apply CliFacts.triple_call; reflexivity |].
    intros e _.
    eapply CliFacts.triple_bind;
      [apply CliFacts.triple_ExitIfError, noup_Print |].
    intros _ _.
    apply CliFacts.triple_seq; [apply CliFacts.triple_Println, noup_Print |].
    apply CliFacts.triple_ret. exact I.
  - apply CliFacts.triple_seq; [apply CliFacts.triple_Println, noup_Print |].
    apply CliFacts.triple_ret. exact I.
Qed.

Lemma checkInterpreterAndReinit_no_update (m : Manager) (c : Configurator) :
  triple no_update (checkInterpreterAndReinit ops m c) (fun _ => True).
Proof.
  unfold checkInterpreterAndReinit.
  eapply CliFacts.triple_bind; [apply CliFacts.triple_read |]. intros cmd _.
  destruct (String.eqb cmd "").
  - apply CliFacts.triple_seq; [apply findInterpreter_no_update |].
    apply CliFacts.init_no_update.
  - apply CliFacts.triple_ret. exact I.
Qed.

Lemma repositories_no_update (m : Manager) :
  triple no_update (repositories ops cli m) (fun _ => True).
Proof.
  unfold repositories.
  eapply CliFacts.triple_bind; [apply CliFacts.triple_read |]. intros repos _.
  apply CliFacts.triple_forEach. intros repo.
  apply CliFacts.triple_Printf, noup_Print.
Qed.

Lemma runCommand_no_update
      (command : string) (args : list string) (m : Manager) (c : Configurator) :
  String.eqb command "update" = false ->
  String.eqb command "langs" = false ->
  triple no_update (runCommand ops cli command args m c) (fun _ => True).
Proof.
  intros Hupdate Hlangs. unfold runCommand. rewrite Hupdate, Hlangs.
  repeat match goal with
         | |- context [if String.eqb command ?x then _ else _] =>
             destruct (String.eqb command x)
         end.
  - apply CliFacts.list_no_update.
  - apply CliFacts.search_no_update.
  - apply show_no_update.
  - apply run_triple_gen; [exact noup_Print | reflexivity | reflexivity].
  - apply install_no_update.
  - apply remove_no_update.
  - apply CliFacts.triple_seq; [apply findInterpreter_no_update |].
    apply CliFacts.triple_ret. exact I.
  - apply repositories_no_update.
  - apply CliFacts.triple_Println, noup_Print.
  - apply CliFacts.triple_Println, noup_Print.
  - apply CliFacts.triple_printHelpAndExit, noup_Print.
Qed.

End NoUpdate.

(** X10.  [UpdateRepositories] is called for the commands [update] and
    [langs] only: for every other command, known or not, [main] ends
    without having called it, whether or not repository data has been
    downloaded. *)
Theorem main_updates_only_for_update_and_langs
        {E : Type} (ops : Ops E) (cli : Pkg)
        (os_Args : list string) (s : St E) :
  String.eqb (command_of ops cli os_Args) "update" = false ->
  String.eqb (command_of ops cli os_Args) "langs" = false ->
  allowed no_update s ->
  allowed no_update (snd (main ops cli os_Args s)).
Proof.
  intros Hupdate Hlangs.
  assert (Ht : triple no_update (main ops cli os_Args) (fun _ => True)).
  { unfold main.
    eapply CliFacts.triple_bind; [apply CliFacts.init_no_update |].
    intros [m c] _.
    eapply CliFacts.triple_bind; [apply CliFacts.triple_read |]. intros has _.
    eapply CliFacts.triple_bind; [apply CliFacts.triple_slice |]. intros args ->.
    change (ToLower ops (GetCommand cli (skipn 1 os_Args)))
      with (command_of ops cli os_Args).
    rewrite Hlangs.
    eapply CliFacts.triple_bind with (Q := fun _ => True).
    - repeat match goal with
             | |- context [if String.eqb (command_of ops cli os_Args) ?x
                           then _ else _] =>
                 destruct (String.eqb (command_of ops cli os_Args) x)
             end;
        try (apply CliFacts.triple_ret; exact I).
      eapply CliFacts.triple_bind;
        [apply checkInterpreterAndReinit_no_update |].
      intros r _. apply CliFacts.triple_ret. exact I.
    - intros m' _. apply runCommand_no_update; assumption. }
  intros Hs. apply (Ht s Hs).
Qed.

Lemma main_updates_only_for_update_and_langs_witness :
  allowed no_update
    (snd (main Sample.sampleOps Sample.samplePkg ["insteadman"; "show"; "cat"]
               (mkSt [] Sample.fresh))).
Proof.
  apply (main_updates_only_for_update_and_langs Sample.sampleOps
           Sample.samplePkg ["insteadman"; "show"; "cat"]
           (mkSt [] Sample.fresh)); reflexivity.
Defined.

End CliMore.

(* ================================================================= *)
(** * Further properties of the interpreter finder *)

Module FinderMore.
Import Go InterpreterFinder Spec.

Lemma filterBytes_all (keep : ascii -> bool) (s : string) :
  allBytes keep (filterBytes keep s) = true.
Proof.
  induction s as [| ch t IH]; [reflexivity |].
  cbn [filterBytes]. destruct (keep ch) eqn:Hk; [| exact IH].
  cbn [allBytes]. rewrite Hk, IH. reflexivity.
Qed.

(** X11.  The version string [Check] returns never contains a line feed or
    a carriage return, whatever the command prints and however it ends. *)
Theorem Check_version_single_line
        (pf : Platform) (os : OS) (f : InterpreterFinder) (command : string) :
  allBytes not_line_ending (fst (Check pf os f command)) = true.
Proof.
  unfold Check, Output, Command. cbn [cmd_Path cmd_Args].
  destruct (os_run os (ExpandInterpreterCommand pf command) ["-version"])
    as [e | code out]; [reflexivity |].
  destruct (code =? 0)%Z; [| reflexivity].
  cbn [not_nil is_nil negb fst].
  rewrite FinderFacts.Replace_strips. apply filterBytes_all.
Qed.

End FinderMore.

(* ================================================================= *)
(** * Properties of the GTK error dialogs *)

Module GtkFacts.
Import Go Prog Gtk Spec.
Open Scope prog_scope.

Lemma nth_error_frame {A : Type} (st l : list A) (k : nat) :
  nth_error (st ++ l) (length st + k) = nth_error l k.
Proof. rewrite nth_error_app2 by lia. f_equal. lia. Qed.

Lemma update_frame {A : Type} (f : A -> A) (st l : list A) (k : nat) :
  update (length st + k) f (st ++ l) = (st ++ update k f l)%list.
Proof.
  induction st as [| x st IH]; simpl; [reflexivity |]. rewrite IH. reflexivity.
Qed.

Lemma append_empty_r (t : string) : t ++ "" = t.
Proof. induction t as [| ch t IH]; [reflexivity |]. simpl. rewrite IH. reflexivity. Qed.

Lemma log_line (txt : string) : Sprintf "Error: %v" [txt] = "Error: " ++ txt.
Proof.
  change (Sprintf "Error: %v" [txt]) with ("Error: " ++ (txt ++ "")).
  rewrite append_empty_r. reflexivity.
Qed.

Ltac norm_store :=
  repeat first
    [ rewrite <- app_assoc
    | rewrite length_app
    | rewrite <- Nat.add_assoc
    | rewrite nth_error_frame
    | rewrite update_frame
    | progress cbn -[Sprintf String.append] ].

Ltac run_showErrorDlg st :=
  unfold ShowErrorDlg, ShowErrorDlgFatal, showErrorDlg, DialogNew,
    GetContentArea, LabelNew, onDialog, onBox, onLabel, alloc, emit;
  cbn [DialogNew_fails GetContentArea_fails LabelNew_fails];
  unfold bind, ret, deref, panic, os_Exit; cbn [store trace];
  try (rewrite <- (Nat.add_0_r (length st)));
  norm_store;
  unfold error_dialog_store; rewrite ?Nat.add_0_r, ?log_line.

(** X12.  When the toolkit builds its widgets, [showErrorDlg] logs the
    text, then runs and destroys one dialog: titled "InsteadMan error",
    modal, centred, not resizable, kept above, with a Close button, with the
    parent as transient owner exactly when a parent is given, and holding
    one shown, wrapping label with the text.  Only then, and only when
    [fatal] is set, the process exits with status 1; otherwise the function
    returns. *)
Theorem showErrorDlg_runs_dialog
        (txt : string) (fatal : bool) (parent : option Window) (s : St) :
  showErrorDlg (mkHost false false false) txt fatal parent s
  = (if fatal then Exit 1 else Done tt,
     mkSt (store s ++ error_dialog_store (length (store s)) txt parent)
          (trace s ++ [Log ("Error: " ++ txt);
                       Run (length (store s) + 1);
                       Destroy (length (store s) + 1)])).
Proof.
  destruct s as [st tr]. cbn [store trace].
  destruct parent as [w |]; destruct fatal; run_showErrorDlg st; reflexivity.
Qed.

(** X13.  When a constructor of the toolkit fails, [showErrorDlg] panics on
    the nil widget: the text has been logged, but no dialog is run and, for
    a fatal error too, the exit with status 1 is not reached. *)
Theorem showErrorDlg_toolkit_failure
        (h : Host) (txt : string) (fatal : bool) (parent : option Window)
        (s : St) :
  DialogNew_fails h || GetContentArea_fails h || LabelNew_fails h = true ->
  fst (showErrorDlg h txt fatal parent s) = Panic
  /\ trace (snd (showErrorDlg h txt fatal parent s))
     = (trace s ++ [Log ("Error: " ++ txt)])%list.
Proof.
  destruct s as [st tr]. destruct h as [b1 b2 b3]. cbn [store trace].
  cbn [DialogNew_fails GetContentArea_fails LabelNew_fails].
  destruct parent as [w |]; destruct fatal;
  (destruct b1; [intros _; run_showErrorDlg st; split; reflexivity |]);
  (destruct b2; [intros _; run_showErrorDlg st; split; reflexivity |]);
  (destruct b3; [intros _; run_showErrorDlg st; split; reflexivity |]);
  discriminate.
Qed.

Lemma showErrorDlg_toolkit_failure_witness :
  fst (showErrorDlg (mkHost false false true) "disk full" true None
                    (mkSt [] [])) = Panic
  /\ trace (snd (showErrorDlg (mkHost false false true) "disk full" true None
                              (mkSt [] [])))
     = ([] ++ [Log ("Error: " ++ "disk full")])%list.
Proof.
  apply (showErrorDlg_toolkit_failure (mkHost false false true) "disk full"
           true None (mkSt [] [])).
  reflexivity.
Defined.

End GtkFacts.

(* ================================================================= *)
(** * Further properties of the Fyne front end *)

Module FyneMore.
Import Go Manager Prog Fyne Spec.
Open Scope prog_scope.

Ltac run_UpdateInfo ops g :=
  unfold UpdateInfo, bind, modify, when, call, read, emit, get, ret;
  cbn [screen trace world];
  destruct (String.eqb (Descurl g) ""); cbn [negb screen trace world];
  destruct (Installed g); cbn [negb screen trace world];
  cbn [m c set_game set_title set_desc set_version set_lang set_repository
       set_size set_image set_hyperlink set_installButton set_runButton
       set_deleteButton];
  match goal with
  | |- context [GetGameImage ops ?mm g ?w] =>
      let fileName := fresh "fileName" in
      let e := fresh "e" in
      let w1 := fresh "w" in
      destruct (GetGameImage ops mm g w) as [[fileName e] w1];
      destruct e; cbn [is_nil fst snd screen trace world]
  end;
  try match goal with
      | |- context [os_ReadFile ops ?pp ?w] =>
          let b := fresh "b" in
          let e := fresh "e" in
          destruct (os_ReadFile ops pp w) as [b e]; destruct e
      end;
  cbn [fst snd screen trace world].


(** X15.  After [UpdateInfo] the picture is never the one of the game shown
    before: it is the game's own image, a resource named "game_" followed by
    the game's name with the bytes of the image file, when [GetGameImage]
    and the reading of the file both succeed, and the application logo
    otherwise.  Only a failure to read the file is reported, with a line on
    standard output; a failing [GetGameImage] is silent. *)
Theorem UpdateInfo_image
        {E : Type} (ops : Ops E) (g : Game) (s : St GameInfoScreen E) :
  let s' := snd (UpdateInfo ops g s) in
  let img := GetGameImage ops (m (screen s)) g (world s) in
  let file := os_ReadFile ops (DataResourcePath ops (c (screen s)) (fst (fst img)))
                          (snd img) in
  match snd (fst img), snd file with
  | None, None =>
      image (screen s') = StaticResource ("game_" ++ Name g) (fst file)
      /\ trace s' = (trace s ++ [CallGetGameImage g])%list
  | None, Some err =>
      image (screen s') = InsteadManLogo
      /\ trace s'
         = (trace s ++ [CallGetGameImage g;
                        Print (Sprintf ("Error: %v" ++ NL) [Error ops err])])%list
  | Some _, _ =>
      image (screen s') = InsteadManLogo
      /\ trace s' = (trace s ++ [CallGetGameImage g])%list
  end.
Proof.
  run_UpdateInfo ops g; split; rewrite <- ?app_assoc; reflexivity.
Qed.

Lemma UpdateInfo_quiet
      {E : Type} (ops : Ops E) (g : Game) (s : St GameInfoScreen E) :
  exists s' evs,
    UpdateInfo ops g s = (Done tt, s')
    /\ trace s' = (trace s ++ evs)%list
    /\ existsb is_progress_hide evs = false
    /\ game (screen s') = Some g
    /\ buttons_fit (Installed g) (screen s').
Proof.
  unfold buttons_fit.
  run_UpdateInfo ops g; eexists _, _;
    (split; [reflexivity |]); cbn [screen trace world];
    (split; [rewrite <- ?app_assoc; reflexivity |]);
    repeat split; reflexivity.
Qed.

Lemma call_onRefresh_quiet
      {E : Type} (onRefresh : option (E -> E)) (s : St GameInfoScreen E) :
  exists s' evs,
    call_onRefresh onRefresh s = (Done tt, s')
    /\ screen s' = screen s
    /\ trace s' = (trace s ++ evs)%list
    /\ existsb is_progress_hide evs = false.
Proof.
  unfold call_onRefresh, call, ret. destruct onRefresh as [f |].
  - eexists _, [CallOnRefresh]. repeat split; reflexivity.
  - exists s, []. rewrite app_nil_r. repeat split; reflexivity.
Qed.

Lemma progress_hides (float64_ge : Z -> Z -> bool) (total : Z) (sizes : list Z) :
  existsb is_progress_hide (progress_events float64_ge total sizes)
  = existsb (fun size => float64_ge size total) sizes.
Proof.
  unfold progress_events.
  induction sizes as [| size rest IH]; [reflexivity |].
  cbn [flat_map existsb]. rewrite existsb_app, IH. cbn [existsb is_progress_hide].
  destruct (float64_ge size total); reflexivity.
Qed.

Lemma installButton_success
      {E : Type} (ops : Ops E) (float64_ge : Z -> Z -> bool)
      (onRefresh : option (E -> E)) (s : St GameInfoScreen E)
      (g g' : Game) (sizes : list Z) (w' : E) :
  game (screen s) = Some g ->
  InstallGame ops (m (screen s)) g (world s) = ((sizes, g', None), w') ->
  exists s' evs,
    installButton_OnTapped ops float64_ge onRefresh s = (Done tt, s')
    /\ game (screen s') = Some (set_Installed true g')
    /\ buttons_fit true (screen s')
    /\ trace s'
       = (trace s ++ ProgressShow (Title g) "Installing..." :: evs)%list
    /\ existsb is_progress_hide evs
       = existsb (fun size => float64_ge size (Size g)) sizes.
Proof.
  intros Hgame Hinstall.
  unfold installButton_OnTapped.
  unfold bind at 1, get at 1. rewrite Hgame.
  unfold bind at 1, deref at 1, ret at 1.
  unfold bind at 1, emit at 1.
  unfold bind at 1, call at 1. cbn [screen trace world]. rewrite Hinstall.
  unfold bind at 1, modify at 1. cbn [screen trace world].
  unfold bind at 1. rewrite FyneFacts.progress_spec. cbn [screen trace world].
  unfold bind at 1, get at 1. cbn [screen game set_game].
  unfold bind at 1, deref at 1, ret at 1.
  unfold bind at 1, modify at 1. cbn [screen trace world game set_game].
  unfold bind at 1, get at 1. cbn [screen game set_game].
  unfold bind at 1, deref at 1, ret at 1.
  unfold bind at 1.
  match goal with
  | |- context [UpdateInfo ops ?gg ?s1] =>
      destruct (UpdateInfo_quiet ops gg s1)
        as (s2 & evs2 & -> & Ht2 & Hq2 & Hg2 & Hb2)
  end.
  destruct (call_onRefresh_quiet onRefresh s2)
    as (s3 & evs3 & -> & Hscr & Ht3 & Hq3).
  exists s3. eexists. split; [reflexivity |].
  rewrite Hscr. split; [exact Hg2 |]. split; [exact Hb2 |].
  rewrite Ht3, Ht2. cbn [trace]. split.
  - rewrite <- !app_assoc. cbn [app]. reflexivity.
  - cbn [existsb is_progress_hide orb].
    rewrite !existsb_app, Hq2, Hq3, progress_hides.
    rewrite !orb_false_r. reflexivity.
Qed.

(** X16.  On a successful installation the handler itself never hides the
    progress dialog it opened: once shown, the dialog is hidden exactly when
    some progress callback reported a size that reaches the size of the
    game.  An installation that succeeds without such a callback leaves the
    dialog open. *)
Theorem installButton_progress_dialog
        {E : Type} (ops : Ops E) (float64_ge : Z -> Z -> bool)
        (onRefresh : option (E -> E)) (s : St GameInfoScreen E)
        (g g' : Game) (sizes : list Z) (w' : E) :
  game (screen s) = Some g ->
  InstallGame ops (m (screen s)) g (world s) = ((sizes, g', None), w') ->
  exists evs,
    trace (snd (installButton_OnTapped ops float64_ge onRefresh s))
    = (trace s ++ ProgressShow (Title g) "Installing..." :: evs)%list
    /\ existsb is_progress_hide evs
       = existsb (fun size => float64_ge size (Size g)) sizes.
Proof.
  intros Hgame Hinstall.
  destruct (installButton_success ops float64_ge onRefresh s g g' sizes w'
              Hgame Hinstall) as (s' & evs & -> & _ & _ & Ht & Hq).
  exists evs. split; assumption.
Qed.

Lemma installButton_progress_dialog_witness :
  exists evs,
    trace (snd (installButton_OnTapped Sample.sampleOps Sample.float64_ge None
                  (mkSt (Sample.screenOf Sample.cat) [] Sample.fresh)))
    = ([] ++ ProgressShow (Title Sample.cat) "Installing..." :: evs)%list
    /\ existsb is_progress_hide evs
       = existsb (fun size => Sample.float64_ge size (Size Sample.cat)) [2000%Z].
Proof.
  exact (installButton_progress_dialog Sample.sampleOps Sample.float64_ge None
           (mkSt (Sample.screenOf Sample.cat) [] Sample.fresh)
           Sample.cat Sample.cat [2000%Z] Sample.fresh eq_refl eq_refl).
Defined.

(** X17.  Install then delete: after a successful installation the screen
    holds the game marked installed and offers [Run] and [Delete]; the
    delete handler can then always be run, and it ends with the game marked
    not installed and [Install] offered again. *)
Theorem install_then_delete
        {E : Type} (ops : Ops E) (float64_ge : Z -> Z -> bool)
        (onRefresh : option (E -> E)) (s : St GameInfoScreen E)
        (g g' : Game) (sizes : list Z) (w' : E) :
  game (screen s) = Some g ->
  InstallGame ops (m (screen s)) g (world s) = ((sizes, g', None), w') ->
  exists s1 s2,
    installButton_OnTapped ops float64_ge onRefresh s = (Done tt, s1)
    /\ option_map Installed (game (screen s1)) = Some true
    /\ buttons_fit true (screen s1)
    /\ deleteButton_OnTapped ops onRefresh s1 = (Done tt, s2)
    /\ option_map Installed (game (screen s2)) = Some false
    /\ buttons_fit false (screen s2).
Proof.
  intros Hgame Hinstall.
  destruct (installButton_success ops float64_ge onRefresh s g g' sizes w'
              Hgame Hinstall) as (s1 & evs & Hrun1 & Hg1 & Hb1 & _ & _).
  destruct (RemoveGame ops (m (screen s1)) (set_Installed true g') (world s1))
    as [[g'' err] w''] eqn:Hremove.
  destruct (FyneFacts.deleteButton_always_clears ops onRefresh s1
              (set_Installed true g') g'' err w'' Hg1 Hremove)
    as (s2 & Hrun2 & Hg2 & Hb2).
  exists s1, s2. rewrite Hg1, Hg2. repeat split; try assumption;
    try apply Hb1; try apply Hb2.
Qed.

Lemma install_then_delete_witness :
  exists s1 s2,
    installButton_OnTapped Sample.sampleOps Sample.float64_ge None
      (mkSt (Sample.screenOf Sample.cat) [] Sample.fresh) = (Done tt, s1)
    /\ option_map Installed (game (screen s1)) = Some true
    /\ buttons_fit true (screen s1)
    /\ deleteButton_OnTapped Sample.sampleOps None s1 = (Done tt, s2)
    /\ option_map Installed (game (screen s2)) = Some false
    /\ buttons_fit false (screen s2).
Proof.
  exact (install_then_delete Sample.sampleOps Sample.float64_ge None
           (mkSt (Sample.screenOf Sample.cat) [] Sample.fresh)
           Sample.cat Sample.cat [2000%Z] Sample.fresh eq_refl eq_refl).
Defined.

(** X18.  The detect handler shows its information label and reports the
    outcome of [Find] there.  When a candidate is present the path entry
    receives the first present one; when none is, the entry keeps its text.
    Either way the manager of the screen, its configuration included, is
    left as it is and nothing is written. *)
Theorem detectButton_fills_path
        {E : Type} (ops : Ops E) (s : St SettingsScreen E) :
  let found := InterpreterFinder.Find (platform ops) (host ops (world s))
                                      (Finder (ss_Manager (screen s))) in
  detectButton_OnTapped ops s
  = (Done tt,
     mkSt (mkSettingsScreen (ss_Manager (screen s))
             (match found with
              | Some p => mkLabel p (Hidden (path (screen s)))
              | None => path (screen s)
              end)
             (mkLabel (match found with
                       | Some _ => "INSTEAD has detected!"
                       | None => "INSTEAD hasn't detected!"
                       end) false))
          (trace s) (world s))
  /\ match found with
     | Some p =>
         first_such (stat_succeeds (host ops (world s)))
                    (InterpreterFinder.exactFilePaths (platform ops)) p
     | None => True
     end.
Proof.
  intros found. split.
  - unfold detectButton_OnTapped.
    unfold bind at 1, modify at 1. unfold bind at 1, modify at 1.
    unfold bind at 1, get at 1. unfold bind at 1, read at 1.
    cbn [screen trace world set_pathInfo ss_Manager]. fold found.
    destruct found as [p |]; [| reflexivity].
    unfold bind, modify. cbn [screen trace world]. reflexivity.
  - destruct found as [p |] eqn:Hfound; [| exact I].
    apply FinderFacts.Find_loop_first. exact Hfound.
Qed.

End FyneMore.
